(** * meal_max: the kitchen model and the random.org client

    A shallow embedding of [meal_max/models/kitchen_model.py] and
    [meal_max/utils/random_utils.py].

    - Python [float] and SQLite [REAL] are IEEE binary64 numbers: Rocq's
      primitive [float].
    - The [meals] table is a finite map from the primary key [id] to the
      remaining columns.
    - Every function of the kitchen model runs in a state-and-exception
      monad over the database; the state also keeps the trace of what was
      asked of the connection, which is what the repository's tests read
      back from their mock cursor.
    - Exceptions keep their Python class and the message they are raised
      with; [kind_of] reads the error kind off both.
    - [cursor.execute] binds a Python int as a 64-bit INTEGER and raises
      OverflowError, before it runs the statement, for an int that does not
      fit: an id of a [WHERE id = ?], an int price of the INSERT. *)

From Stdlib Require Import ZArith Uint63 Floats Ascii Lia.
From stdpp Require Import gmap strings list sorting.

Open Scope Z_scope.

(** * The embedding *)

(** ** IEEE doubles *)

Module Real.

(** Conversion of an integer to the nearest double (what SQLite does to
    an INTEGER operand of a REAL operation, and to an integer stored in a
    REAL column). *)
Definition of_int (z : Z) : float :=
  SF2Prim (binary_normalize prec emax z 0 false).

(** The order SQLite sorts REAL values by.  A NaN, which SQLite keeps as
    NULL, sorts below every number. *)
Definition le (a b : float) : bool := is_nan a || (a <=? b)%float.

(** Nearest integer to [n / d], ties to even ([0 < d]). *)
Definition half_even (n d : Z) : Z :=
  let q := n / d in
  let r := n mod d in
  match 2 * r ?= d with
  | Lt => q
  | Gt => q + 1
  | Eq => if Z.even q then q else q + 1
  end.

(** Python's [round(x, 1)] on a float.  CPython prints the exact value of
    [x] with one digit after the point, correctly rounded with ties to
    even, and reads that decimal back as the nearest double; infinities,
    NaN and zeros round to themselves.  [x] is [m * 2^e] exactly, so the
    number of tenths is the rounded [10 * m * 2^e], and the result is the
    correctly rounded quotient of the tenths by ten. *)
Definition round1 (x : float) : float :=
  match Prim2SF x with
  | S754_finite s m e =>
      let tenths :=
        if 0 <=? e then Zpos m * 10 * 2 ^ e
        else half_even (Zpos m * 10) (2 ^ (- e)) in
      match tenths with
      | Zpos t =>
          SF2Prim (SFdiv prec emax (S754_finite s t 0) (S754_finite false 10 0))
      | _ => SF2Prim (S754_zero s)
      end
  | _ => x
  end.

End Real.

(** ** Python values and exceptions *)

(** The values a caller may pass where the code tests the type at run time
    (the [price] argument). *)
Inductive pyval :=
| PyFloat (f : float)
| PyInt (z : Z)
| PyStr (s : string)
| PyNone.

(** [isinstance(v, (int, float))] *)
Definition isinstance_int_float (v : pyval) : bool :=
  match v with
  | PyFloat _ | PyInt _ => true
  | _ => false
  end.

(** What made a request fail, other than a timeout: an exception of
    [requests.get], with its text, or the HTTPError that
    [raise_for_status] raises on a status from 400 to 599. *)
Inductive failure :=
| Get_raised (text : string)
| Bad_status (status_code : Z).

(** The messages the exceptions are raised with, with the values that are
    formatted into them. *)
Inductive message :=
| Price_must_be_positive                (* "Price must be a positive value." *)
| Difficulty_must_be                    (* "Difficulty must be 'LOW', 'MED', or 'HIGH'." *)
| Invalid_price (price : pyval)         (* "Invalid price: {price}. Price must be a positive number." *)
| Invalid_difficulty (level : string)   (* "Invalid difficulty level: {difficulty}. Must be ..." *)
| Meal_already_exists (name : string)   (* "Meal with name '{meal}' already exists" *)
| Id_has_been_deleted (i : Z)           (* "Meal with ID {meal_id} has been deleted" *)
| Id_not_found (i : Z)                  (* "Meal with ID {meal_id} not found" *)
| Name_has_been_deleted (name : string) (* "Meal with name {meal_name} has been deleted" *)
| Name_not_found (name : string)        (* "Meal with name {meal_name} not found" *)
| Invalid_sort_by (key : string)        (* "Invalid sort_by parameter: %s" *)
| Invalid_result (res : string)         (* "Invalid result: {result}. Expected 'win' or 'loss'." *)
| Invalid_response (text : string)      (* "Invalid response from random.org: %s" *)
| Request_timed_out                     (* "Request to random.org timed out." *)
| Request_failed (cause : failure).     (* "Request to random.org failed: %s" *)

Inductive exn :=
| ValueError (msg : message)
| RuntimeError (msg : message)
| TypeError
| OverflowError                         (* raised by sqlite3 for an int it cannot bind *)
| IntegrityError                        (* sqlite3.IntegrityError, a sqlite3.Error *)
| RequestsTimeout                       (* requests.exceptions.Timeout *)
| RequestException (cause : failure).   (* any other requests.exceptions.RequestException *)

(** The class of an exception, as [type(e).__name__] names it. *)
Definition class_of (e : exn) : string :=
  match e with
  | ValueError _ => "ValueError"
  | RuntimeError _ => "RuntimeError"
  | TypeError => "TypeError"
  | OverflowError => "OverflowError"
  | IntegrityError => "IntegrityError"
  | RequestsTimeout => "Timeout"
  | RequestException _ => "RequestException"
  end.

(** The error kinds of the specification. *)
Inductive kind :=
| InvalidArgument | DuplicateEntity | NotFound | AlreadyDeleted
| StorageError | Timeout | Unavailable | InvalidResponse.

Definition kind_of (e : exn) : option kind :=
  match e with
  | ValueError (Price_must_be_positive | Difficulty_must_be
               | Invalid_price _ | Invalid_difficulty _
               | Invalid_sort_by _ | Invalid_result _) => Some InvalidArgument
  | ValueError (Meal_already_exists _) => Some DuplicateEntity
  | ValueError (Id_not_found _ | Name_not_found _) => Some NotFound
  | ValueError (Id_has_been_deleted _ | Name_has_been_deleted _) => Some AlreadyDeleted
  | ValueError (Invalid_response _) => Some InvalidResponse
  | RuntimeError Request_timed_out => Some Timeout
  | RuntimeError (Request_failed _) => Some Unavailable
  | IntegrityError => Some StorageError
  | _ => None
  end.

Inductive result (A : Type) :=
| Ok (a : A)
| Raise (e : exn).
Arguments Ok {A} a.
Arguments Raise {A} e.

(** [difficulty in ['LOW', 'MED', 'HIGH']] *)
Definition levels : list string := ["LOW"; "MED"; "HIGH"]%string.

(** ** The Meal dataclass *)

Record Meal := {
  m_id : Z;
  m_meal : string;
  m_cuisine : string;
  m_price : pyval;
  m_difficulty : string
}.

(** [self.price < 0]: a number is compared with zero, anything else makes
    the comparison raise TypeError. *)
Definition lt_zero (v : pyval) : result bool :=
  match v with
  | PyFloat f => Ok (f <? 0)%float
  | PyInt z => Ok (z <? 0)
  | _ => Raise TypeError
  end.

Definition Meal_post_init (self : Meal) : result unit :=
  match lt_zero (m_price self) with
  | Raise e => Raise e
  | Ok true => Raise (ValueError Price_must_be_positive)
  | Ok false =>
      if decide (m_difficulty self ∉ levels)
      then Raise (ValueError Difficulty_must_be)
      else Ok tt
  end.

(** [Meal(id=.., meal=.., cuisine=.., price=.., difficulty=..)] *)
Definition Meal_init (id : Z) (meal cuisine : string) (price : pyval)
    (difficulty : string) : result Meal :=
  let self := {| m_id := id; m_meal := meal; m_cuisine := cuisine;
                 m_price := price; m_difficulty := difficulty |} in
  match Meal_post_init self with
  | Ok _ => Ok self
  | Raise e => Raise e
  end.

(** ** The database *)

(** Modelled from the spec: the [meals] table, whose declaration is not
    part of the sources.  [meals(id PK autoincrement, meal TEXT UNIQUE,
    cuisine TEXT, price REAL, difficulty TEXT, battles INTEGER DEFAULT 0,
    wins INTEGER DEFAULT 0, deleted BOOLEAN DEFAULT FALSE)].  A row holds
    every column but the key.  [price] is NULL ([None]) or a number: SQLite
    stores no NaN.  The INTEGER counters are unbounded here; SQLite's are
    64 bits wide, a range that increments by one do not leave in practice. *)
Record row := {
  r_meal : string;
  r_cuisine : string;
  r_price : option float;
  r_difficulty : string;
  r_battles : Z;
  r_wins : Z;
  r_deleted : bool
}.

(** The two orders [get_leaderboard] can ask for. *)
Inductive order_by := ORDER_BY_win_pct_DESC | ORDER_BY_wins_DESC.

(** The statements the kitchen model passes to [cursor.execute], with their
    parameters. *)
Inductive statement :=
| INSERT_INTO_meals (meal cuisine : string) (price : float) (difficulty : string)
| SELECT_deleted (id : Z)
| UPDATE_SET_deleted (id : Z)
| SELECT_leaderboard (o : order_by)
| SELECT_meal_WHERE_id (id : Z)
| SELECT_meal_WHERE_meal (name : string)
| UPDATE_SET_battles_wins (id : Z)
| UPDATE_SET_battles (id : Z).

Inductive event :=
| Connect
| Execute (s : statement)
| Commit.

Record db := {
  meals : gmap Z row;
  trace : list event
}.

Definition empty_db : db := {| meals := ∅; trace := [] |}.

(** ** The state-and-exception monad *)

Definition M (A : Type) : Type := db → result A * db.

Definition ret {A} (a : A) : M A := λ d, (Ok a, d).

Definition raise {A} (e : exn) : M A := λ d, (Raise e, d).

Definition bind {A B} (m : M A) (k : A → M B) : M B := λ d,
  match m d with
  | (Ok a, d') => k a d'
  | (Raise e, d') => (Raise e, d')
  end.

(** [try: m  except e: h e] *)
Definition try_except {A} (m : M A) (h : exn → M A) : M A := λ d,
  match m d with
  | (Ok a, d') => (Ok a, d')
  | (Raise e, d') => h e d'
  end.

(** A pure computation that may raise. *)
Definition lift {A} (r : result A) : M A := λ d, (r, d).

Declare Scope kitchen_scope.
Delimit Scope kitchen_scope with kitchen.
Notation "x <~ m ;; k" := (bind m (λ x, k))
  (at level 100, m at next level, right associativity) : kitchen_scope.
Notation "m ;;; k" := (bind m (λ _, k))
  (at level 100, right associativity) : kitchen_scope.
Open Scope kitchen_scope.

(** ** The storage engine *)

Definition emit (ev : event) : M unit := λ d,
  (Ok tt, {| meals := meals d; trace := trace d ++ [ev] |}).

Definition modify (f : gmap Z row → gmap Z row) : M unit := λ d,
  (Ok tt, {| meals := f (meals d); trace := trace d |}).

Definition query {A} (f : gmap Z row → A) : M A := λ d, (Ok (f (meals d)), d).

(** Modelled from the spec: [get_db_connection] of [meal_max.utils.sql_utils],
    which is not part of the sources.  It hands out a connection for the
    scope of a [with] block. *)
Definition get_db_connection : M unit := emit Connect.

Definition commit : M unit := emit Commit.

(** sqlite3 binds a Python int to a parameter as a 64-bit INTEGER.  For an
    int outside that range [cursor.execute] raises OverflowError ("Python
    int too large to convert to SQLite INTEGER") and the statement is not
    run. *)
Definition fits_int64 (z : Z) : bool := (- 2 ^ 63 <=? z) && (z <? 2 ^ 63).

(** Binding the [id] of a [WHERE id = ?].  The keys of [meals] stand for the
    rowids of the table, which are 64-bit INTEGERs: the key of a row is
    bound, as is any other int that fits. *)
Definition bind_id (id : Z) : M unit :=
  is_key <~ query (λ tbl, bool_decide (is_Some (tbl !! id))) ;;
  if fits_int64 id || is_key then ret tt else raise OverflowError.

(** Whether [cursor.execute] binds the [price] of the INSERT: a float is
    bound as a REAL, an int as an INTEGER if it fits. *)
Definition binds (price : pyval) : bool :=
  match price with
  | PyInt z => fits_int64 z
  | _ => true
  end.

Definition bind_price (price : pyval) : M unit :=
  if binds price then ret tt else raise OverflowError.

(** A REAL as SQLite keeps it: NaN becomes NULL. *)
Definition store_real (x : float) : option float :=
  if is_nan x then None else Some x.

(** The rows of the table in the order of a table scan: by ascending key. *)
Definition rowid_le (a b : Z * row) : Prop := a.1 ≤ b.1.

Global Instance rowid_le_dec a b : Decision (rowid_le a b).
Proof. unfold rowid_le; apply _. Defined.

Definition scan (tbl : gmap Z row) : list (Z * row) :=
  merge_sort rowid_le (map_to_list tbl).

(** The key SQLite gives an inserted row: one more than the largest key. *)
Definition next_rowid (tbl : gmap Z row) : Z :=
  1 + foldr Z.max 0 (map_to_list tbl).*1.

(** Modelled from the spec: the column defaults of the table declaration
    ([battles] 0, [wins] 0, [deleted] FALSE), which the INSERT relies on. *)
Definition new_row (meal cuisine : string) (price : float) (difficulty : string) : row :=
  {| r_meal := meal; r_cuisine := cuisine; r_price := store_real price;
     r_difficulty := difficulty; r_battles := 0; r_wins := 0; r_deleted := false |}.

(** [INSERT INTO meals (meal, cuisine, price, difficulty) VALUES (?, ?, ?, ?)].
    The UNIQUE constraint on [meal] makes the statement fail with
    [sqlite3.IntegrityError] when some row, deleted or not, has the name. *)
Definition execute_insert (meal cuisine : string) (price : float)
    (difficulty : string) : M unit :=
  emit (Execute (INSERT_INTO_meals meal cuisine price difficulty)) ;;;
  taken <~ query (λ tbl, bool_decide (map_Exists (λ _ r, r_meal r = meal) tbl)) ;;
  if taken : bool then raise IntegrityError
  else modify (λ tbl, <[next_rowid tbl := new_row meal cuisine price difficulty]> tbl).

(** [SELECT deleted FROM meals WHERE id = ?] and [fetchone()]: the one-column
    tuple of the row, or [None]. *)
Definition execute_select_deleted (id : Z) : M (option bool) :=
  bind_id id ;;;
  emit (Execute (SELECT_deleted id)) ;;;
  query (λ tbl, r_deleted <$> tbl !! id).

Definition set_deleted (r : row) : row :=
  {| r_meal := r_meal r; r_cuisine := r_cuisine r; r_price := r_price r;
     r_difficulty := r_difficulty r; r_battles := r_battles r;
     r_wins := r_wins r; r_deleted := true |}.

(** [battles = battles + 1, wins = wins + 1] *)
Definition add_win (r : row) : row :=
  {| r_meal := r_meal r; r_cuisine := r_cuisine r; r_price := r_price r;
     r_difficulty := r_difficulty r; r_battles := r_battles r + 1;
     r_wins := r_wins r + 1; r_deleted := r_deleted r |}.

(** [battles = battles + 1] *)
Definition add_loss (r : row) : row :=
  {| r_meal := r_meal r; r_cuisine := r_cuisine r; r_price := r_price r;
     r_difficulty := r_difficulty r; r_battles := r_battles r + 1;
     r_wins := r_wins r; r_deleted := r_deleted r |}.

(** [UPDATE meals SET deleted = TRUE WHERE id = ?] *)
Definition execute_update_deleted (id : Z) : M unit :=
  emit (Execute (UPDATE_SET_deleted id)) ;;;
  modify (alter set_deleted id).

(** [UPDATE meals SET battles = battles + 1, wins = wins + 1 WHERE id = ?] *)
Definition execute_update_win (id : Z) : M unit :=
  emit (Execute (UPDATE_SET_battles_wins id)) ;;;
  modify (alter add_win id).

(** [UPDATE meals SET battles = battles + 1 WHERE id = ?] *)
Definition execute_update_loss (id : Z) : M unit :=
  emit (Execute (UPDATE_SET_battles id)) ;;;
  modify (alter add_loss id).

(** [SELECT id, meal, cuisine, price, difficulty, deleted FROM meals
    WHERE id = ?] and [fetchone()]. *)
Definition execute_select_by_id (id : Z) : M (option (Z * row)) :=
  bind_id id ;;;
  emit (Execute (SELECT_meal_WHERE_id id)) ;;;
  query (λ tbl, (λ r, (id, r)) <$> tbl !! id).

(** [SELECT id, meal, cuisine, price, difficulty, deleted FROM meals
    WHERE meal = ?] and [fetchone()]: the first row of that name. *)
Definition execute_select_by_name (name : string) : M (option (Z * row)) :=
  emit (Execute (SELECT_meal_WHERE_meal name)) ;;;
  query (λ tbl, head (filter (λ p, r_meal p.2 = name) (scan tbl))).

(** The tuples of the leaderboard query: [id, meal, cuisine, price,
    difficulty, battles, wins, win_pct]. *)
Record tuple := {
  t_id : Z;
  t_meal : string;
  t_cuisine : string;
  t_price : option float;
  t_difficulty : string;
  t_battles : Z;
  t_wins : Z;
  t_win_pct : float
}.

(** [(wins * 1.0 / battles)] in REAL arithmetic. *)
Definition sql_win_pct (wins battles : Z) : float :=
  (Real.of_int wins * 1 / Real.of_int battles)%float.

Definition leaderboard_tuple (p : Z * row) : tuple :=
  {| t_id := p.1; t_meal := r_meal p.2; t_cuisine := r_cuisine p.2;
     t_price := r_price p.2; t_difficulty := r_difficulty p.2;
     t_battles := r_battles p.2; t_wins := r_wins p.2;
     t_win_pct := sql_win_pct (r_wins p.2) (r_battles p.2) |}.

(** [ORDER BY ... DESC]: the relation between a tuple and any tuple that
    may follow it. *)
Definition desc (o : order_by) (a b : tuple) : Prop :=
  match o with
  | ORDER_BY_wins_DESC => t_wins b ≤ t_wins a
  | ORDER_BY_win_pct_DESC => Real.le (t_win_pct b) (t_win_pct a) = true
  end.

Global Instance desc_dec o a b : Decision (desc o a b).
Proof. destruct o; simpl; apply _. Defined.

(** [WHERE deleted = false AND battles > 0] *)
Definition competing (p : Z * row) : Prop :=
  r_deleted p.2 = false ∧ 0 < r_battles p.2.

Global Instance competing_dec p : Decision (competing p).
Proof. unfold competing; apply _. Defined.

(** [SELECT id, meal, cuisine, price, difficulty, battles, wins,
    (wins * 1.0 / battles) AS win_pct FROM meals
    WHERE deleted = false AND battles > 0 ORDER BY ... DESC] and
    [fetchall()]. *)
Definition execute_select_leaderboard (o : order_by) : M (list tuple) :=
  emit (Execute (SELECT_leaderboard o)) ;;;
  query (λ tbl, merge_sort (desc o) (leaderboard_tuple <$> filter competing (scan tbl))).

(** ** The kitchen model *)

(** Every function of the module ends in the clause
    [except sqlite3.Error as e: logger.error(..); raise e], which raises
    what it caught: it changes no outcome and is not written out below,
    except in [create_meal], where it follows the clause for
    [sqlite3.IntegrityError].  The calls of the logger are left out. *)

(** The price test of [create_meal]:
    [not isinstance(price, (int, float)) or price <= 0]. *)
Definition invalid_price (price : pyval) : bool :=
  match price with
  | PyFloat f => (f <=? 0)%float
  | PyInt z => z <=? 0
  | _ => true
  end.

(** A price that passes the test, as the REAL column takes it once
    [cursor.execute] has bound it: a float as it is, an int as a double. *)
Definition checked_price (price : pyval) : option float :=
  if invalid_price price then None
  else match price with
       | PyFloat f => Some f
       | PyInt z => Some (Real.of_int z)
       | _ => None
       end.

Definition create_meal (meal cuisine : string) (price : pyval)
    (difficulty : string) : M unit :=
  match checked_price price with
  | None => raise (ValueError (Invalid_price price))
  | Some x =>
      if decide (difficulty ∉ levels)
      then raise (ValueError (Invalid_difficulty difficulty))
      else
        try_except
          (get_db_connection ;;;
           bind_price price ;;;
           execute_insert meal cuisine x difficulty ;;;
           commit)
          (λ e, match e with
                | IntegrityError => raise (ValueError (Meal_already_exists meal))
                | _ => raise e
                end)
  end.

(** [cursor.fetchone()[0]]: subscripting [None] raises TypeError. *)
Definition first_column {A} (fetched : option A) : result A :=
  match fetched with
  | Some a => Ok a
  | None => Raise TypeError
  end.

(** The check that opens [delete_meal] and [update_meal_stats]:
    [try: deleted = cursor.fetchone()[0]; if deleted: raise ValueError(..)
     except TypeError: raise ValueError(..)]. *)
Definition check_not_deleted (meal_id : Z) : M unit :=
  get_db_connection ;;;
  fetched <~ execute_select_deleted meal_id ;;
  try_except
    (deleted <~ lift (first_column fetched) ;;
     if deleted : bool then raise (ValueError (Id_has_been_deleted meal_id))
     else ret tt)
    (λ e, match e with
          | TypeError => raise (ValueError (Id_not_found meal_id))
          | _ => raise e
          end).

Definition delete_meal (meal_id : Z) : M unit :=
  check_not_deleted meal_id ;;;
  execute_update_deleted meal_id ;;;
  commit.

(** The dictionaries of the leaderboard, one field per key. *)
Record entry := {
  e_id : Z;
  e_meal : string;
  e_cuisine : string;
  e_price : option float;
  e_difficulty : string;
  e_battles : Z;
  e_wins : Z;
  e_win_pct : float
}.

Definition leaderboard_entry (t : tuple) : entry :=
  {| e_id := t_id t; e_meal := t_meal t; e_cuisine := t_cuisine t;
     e_price := t_price t; e_difficulty := t_difficulty t;
     e_battles := t_battles t; e_wins := t_wins t;
     e_win_pct := Real.round1 (t_win_pct t * 100)%float |}.

Definition get_leaderboard (sort_by : string) : M (list entry) :=
  o <~ (if decide (sort_by = "win_pct"%string) then ret ORDER_BY_win_pct_DESC
        else if decide (sort_by = "wins"%string) then ret ORDER_BY_wins_DESC
        else raise (ValueError (Invalid_sort_by sort_by))) ;;
  get_db_connection ;;;
  rows <~ execute_select_leaderboard o ;;
  ret (leaderboard_entry <$> rows).

(** A REAL column as Python reads it. *)
Definition py_of_real (x : option float) : pyval :=
  match x with
  | Some f => PyFloat f
  | None => PyNone
  end.

(** What both lookups do with the fetched row. *)
Definition meal_of_row (fetched : option (Z * row)) (deleted missing : message) : M Meal :=
  match fetched with
  | Some (id, r) =>
      if r_deleted r then raise (ValueError deleted)
      else lift (Meal_init id (r_meal r) (r_cuisine r) (py_of_real (r_price r))
                   (r_difficulty r))
  | None => raise (ValueError missing)
  end.

Definition get_meal_by_id (meal_id : Z) : M Meal :=
  get_db_connection ;;;
  fetched <~ execute_select_by_id meal_id ;;
  meal_of_row fetched (Id_has_been_deleted meal_id) (Id_not_found meal_id).

Definition get_meal_by_name (meal_name : string) : M Meal :=
  get_db_connection ;;;
  fetched <~ execute_select_by_name meal_name ;;
  meal_of_row fetched (Name_has_been_deleted meal_name) (Name_not_found meal_name).

Definition update_meal_stats (meal_id : Z) (result : string) : M unit :=
  check_not_deleted meal_id ;;;
  (if decide (result = "win"%string) then execute_update_win meal_id
   else if decide (result = "loss"%string) then execute_update_loss meal_id
   else raise (ValueError (Invalid_result result))) ;;;
  commit.

(** ** Histories of calls *)

Inductive call :=
| Create_meal (meal cuisine : string) (price : pyval) (difficulty : string)
| Delete_meal (meal_id : Z)
| Get_leaderboard (sort_by : string)
| Get_meal_by_id (meal_id : Z)
| Get_meal_by_name (meal_name : string)
| Update_meal_stats (meal_id : Z) (result : string).

(** The database a call leaves behind, whether it returns or raises. *)
Definition step (d : db) (c : call) : db :=
  match c with
  | Create_meal meal cuisine price difficulty =>
      (create_meal meal cuisine price difficulty d).2
  | Delete_meal meal_id => (delete_meal meal_id d).2
  | Get_leaderboard sort_by => (get_leaderboard sort_by d).2
  | Get_meal_by_id meal_id => (get_meal_by_id meal_id d).2
  | Get_meal_by_name meal_name => (get_meal_by_name meal_name d).2
  | Update_meal_stats meal_id result => (update_meal_stats meal_id result d).2
  end.

Definition run (d : db) (cs : list call) : db := foldl step d cs.

(** ** The random.org client *)

(** What [requests.get(url, timeout=5)] comes to: no answer in time, another
    failure of the request, or a response with its status and its text. *)
Inductive reply :=
| Timed_out
| Failed (text : string)
| Response (status_code : Z) (text : string).

Definition requests_get (r : reply) : result (Z * string) :=
  match r with
  | Timed_out => Raise RequestsTimeout
  | Failed text => Raise (RequestException (Get_raised text))
  | Response status_code text => Ok (status_code, text)
  end.

(** [response.raise_for_status()] *)
Definition raise_for_status (status_code : Z) : result unit :=
  if (400 <=? status_code) && (status_code <? 600)
  then Raise (RequestException (Bad_status status_code))
  else Ok tt.

(** [str.isspace] of a character below 256. *)
Definition isspace (c : ascii) : bool :=
  let n := N_of_ascii c in
  ((9 <=? n) && (n <=? 13) || (28 <=? n) && (n <=? 32) || (n =? 133) || (n =? 160))%N.

Fixpoint lstrip (s : string) : string :=
  match s with
  | String c s' => if isspace c then lstrip s' else s
  | EmptyString => s
  end.

(** [str.strip()] *)
Definition strip (s : string) : string :=
  String.rev (lstrip (String.rev (lstrip s))).

Definition try_result {A} (r : result A) (h : exn → result A) : result A :=
  match r with
  | Ok a => Ok a
  | Raise e => h e
  end.

Section get_random.

(** Python's [float] on a string: the double it reads, or [None] where it
    raises ValueError. *)
Variable float_of_str : string → option float.

Definition get_random (r : reply) : result float :=
  try_result
    match requests_get r with
    | Raise e => Raise e
    | Ok (status_code, text) =>
        match raise_for_status status_code with
        | Raise e => Raise e
        | Ok _ =>
            let random_number_str := strip text in
            match float_of_str random_number_str with
            | Some random_number => Ok random_number
            | None => Raise (ValueError (Invalid_response random_number_str))
            end
        end
    end
    (λ e, match e with
          | RequestsTimeout => Raise (RuntimeError Request_timed_out)
          | RequestException cause => Raise (RuntimeError (Request_failed cause))
          | _ => Raise e
          end).

End get_random.

(** ** The helper of the tests of the kitchen model *)

(** [re.sub(r'\s+', ' ', s)]: every maximal run of white space becomes one
    blank.  [in_run] tells that the character before was white space. *)
Fixpoint sub_spaces (s : string) (in_run : bool) : string :=
  match s with
  | String c s' =>
      if isspace c
      then if in_run then sub_spaces s' true else String " " (sub_spaces s' true)
      else String c (sub_spaces s' false)
  | EmptyString => EmptyString
  end.

(** [re.sub(r'\s+', ' ', sql_query).strip()] *)
Definition normalize_whitespace (sql_query : string) : string :=
  strip (sub_spaces sql_query false).

(** * The vocabulary of the properties *)

(** ** Doubles *)

(** A double, as [Prim2SF] shows it, is a NaN. *)
Definition sf_is_nan (x : spec_float) : bool :=
  match x with S754_nan => true | _ => false end.

(** ** States of the database *)

(** The database with some more events on its trace. *)
Definition traced (d : db) (evs : list event) : db :=
  {| meals := meals d; trace := trace d ++ evs |}.

(** The database after a change of the table and some more events. *)
Definition changed (d : db) (tbl : gmap Z row) (evs : list event) : db :=
  {| meals := tbl; trace := trace d ++ evs |}.

(** The name is taken when some row, deleted or not, bears it. *)
Definition name_taken (tbl : gmap Z row) (name : string) : Prop :=
  ∃ i r, tbl !! i = Some r ∧ r_meal r = name.

(** A call leaves the table as it was, inserts a fresh row under a name
    that no row bears, or rewrites a row that is not deleted: marks it
    deleted, or counts a win or a loss. *)
Inductive transition (tbl : gmap Z row) : gmap Z row → Prop :=
| transition_none :
    transition tbl tbl
| transition_insert meal cuisine x difficulty :
    ¬ name_taken tbl meal →
    transition tbl (<[next_rowid tbl := new_row meal cuisine x difficulty]> tbl)
| transition_update id r f :
    tbl !! id = Some r → r_deleted r = false →
    f ∈ [set_deleted; add_win; add_loss] →
    transition tbl (<[id := f r]> tbl).

(** In every row the wins are not negative and not more than the battles. *)
Definition counters_ok (tbl : gmap Z row) : Prop :=
  ∀ i r, tbl !! i = Some r → 0 ≤ r_wins r ≤ r_battles r.

(** The UNIQUE constraint on [meal]. *)
Definition unique_names (tbl : gmap Z row) : Prop :=
  ∀ i j ri rj, tbl !! i = Some ri → tbl !! j = Some rj →
               r_meal ri = r_meal rj → i = j.

(** The REAL column holds numbers. *)
Definition prices_are_numbers (tbl : gmap Z row) : Prop :=
  ∀ i r f, tbl !! i = Some r → r_price r = Some f → is_nan f = false.

(** The stored price is a number below zero. *)
Definition price_negative (r : row) : Prop :=
  ∃ f, r_price r = Some f ∧ (f <? 0)%float = true.

(** ** Arguments of [create_meal] *)

(** [price <= 0] and [price > 0] for the price a caller passes; neither
    holds of a value that is not a number. *)
Definition price_le_zero (price : pyval) : Prop :=
  match price with
  | PyFloat f => (f <=? 0)%float = true
  | PyInt z => z ≤ 0
  | _ => False
  end.

Definition price_positive (price : pyval) : Prop :=
  match price with
  | PyFloat f => (0 <? f)%float = true
  | PyInt z => 0 < z
  | _ => False
  end.

(** ** The leaderboard *)

(** [wins / battles * 100] in doubles, rounded to one decimal place. *)
Definition win_pct (wins battles : Z) : float :=
  Real.round1 (Real.of_int wins / Real.of_int battles * 100)%float.

(** The ratio of an entry: its wins over its battles, in doubles. *)
Definition ratio (e : entry) : float :=
  (Real.of_int (e_wins e) / Real.of_int (e_battles e))%float.

(** The entry for the row [r] under the key [i]. *)
Definition projected (i : Z) (r : row) : entry :=
  {| e_id := i; e_meal := r_meal r; e_cuisine := r_cuisine r;
     e_price := r_price r; e_difficulty := r_difficulty r;
     e_battles := r_battles r; e_wins := r_wins r;
     e_win_pct := win_pct (r_wins r) (r_battles r) |}.

(** [board] lists, once each, the projections of the rows of [tbl] that are
    not deleted and have fought, and no entry is followed, at any distance,
    by one that [before] forbids after it. *)
Definition leaderboard_of (tbl : gmap Z row) (before : entry → entry → Prop)
    (board : list entry) : Prop :=
  (∀ e, e ∈ board ↔
        ∃ i r, tbl !! i = Some r ∧ r_deleted r = false ∧ 0 < r_battles r ∧
               e = projected i r) ∧
  NoDup (e_id <$> board) ∧
  (∀ i j ei ej, (i < j)%nat → board !! i = Some ei → board !! j = Some ej →
                before ei ej).

(** [b] may follow [a] on a board in descending order of [wins]. *)
Definition wins_descending (a b : entry) : Prop := e_wins b ≤ e_wins a.

(** [b] may follow [a] on a board in descending order of the ratio, in the
    order SQLite sorts REAL values by. *)
Definition ratio_descending (a b : entry) : Prop :=
  Real.le (ratio b) (ratio a) = true.

(** ** Responses of random.org *)

(** The status lets the response through. *)
Definition status_ok (status_code : Z) : Prop :=
  ¬ (400 ≤ status_code < 600).

(** ** Databases and parsers to run the functions on *)

(** Three meals: Pizza with 2 wins in 3 battles, Sushi with 4 wins in 5,
    and Salad, which has not fought. *)
Definition demo : db :=
  run empty_db
    [Create_meal "Pizza" "Italian" (PyFloat 15) "MED";
     Create_meal "Sushi" "Japanese" (PyInt 20) "HIGH";
     Create_meal "Salad" "Vegetarian" (PyFloat 7.5) "LOW";
     Update_meal_stats 1 "win"; Update_meal_stats 1 "win"; Update_meal_stats 1 "loss";
     Update_meal_stats 2 "win"; Update_meal_stats 2 "win"; Update_meal_stats 2 "win";
     Update_meal_stats 2 "win"; Update_meal_stats 2 "loss"]%string.

(** A table with a row that no call of [create_meal] would have written:
    its price is negative. *)
Definition cheap : db :=
  {| meals := {[ 1 := {| r_meal := "Gruel"; r_cuisine := "None";
                         r_price := Some (-1)%float; r_difficulty := "LOW";
                         r_battles := 0; r_wins := 0; r_deleted := false |} ]};
     trace := [] |}.

(** The decimal digit a character is. *)
Definition digit (c : ascii) : option Z :=
  let n := N_of_ascii c in
  if ((48 <=? n) && (n <=? 57))%N then Some (Z.of_N n - 48) else None.

(** Reads the digits that open [s] after the number [n]: the number read,
    how many digits it took, and the rest of the string. *)
Fixpoint read_digits (s : string) (n : Z) (k : nat) : Z * nat * string :=
  match s with
  | String c s' =>
      match digit c with
      | Some d => read_digits s' (10 * n + d) (S k)
      | None => (n, k, s)
      end
  | EmptyString => (n, k, s)
  end.

(** An instance for the parameter of [get_random]: the plain decimals
    among the strings that Python's [float] reads, an optional sign, digits,
    and optionally a point and digits, read as the nearest double.  (Python
    reads more: exponents, [inf], [nan], underscores between digits.) *)
Definition plain_decimal (s : string) : option float :=
  let '(negative, s) :=
    match s with
    | String "-" s' => (true, s')
    | String "+" s' => (false, s')
    | _ => (false, s)
    end in
  let '(n, k1, s) := read_digits s 0 0 in
  let '(n, k2, s) :=
    match s with
    | String "." s' => read_digits s' n 0
    | _ => (n, 0%nat, s)
    end in
  match s with
  | EmptyString =>
      if (k1 + k2 =? 0)%nat then None
      else Some (SF2Prim
                   match n with
                   | Zpos p =>
                       SFdiv prec emax (S754_finite negative p 0)
                         (S754_finite false (Z.to_pos (10 ^ Z.of_nat k2)) 0)
                   | _ => S754_zero negative
                   end)
  | _ => None
  end.

(** The line feed that ends the text random.org serves. *)
Definition LF : string := String (ascii_of_nat 10) EmptyString.

(** ** Outcomes of calls *)

(** The exception a result carries, if any. *)
Definition error_of {A} (r : result A) : option exn :=
  match r with
  | Ok _ => None
  | Raise e => Some e
  end.

(** The exception a call raises on a database, if it raises. *)
Definition raised (d : db) (c : call) : option exn :=
  match c with
  | Create_meal meal cuisine price difficulty =>
      error_of (create_meal meal cuisine price difficulty d).1
  | Delete_meal meal_id => error_of (delete_meal meal_id d).1
  | Get_leaderboard sort_by => error_of (get_leaderboard sort_by d).1
  | Get_meal_by_id meal_id => error_of (get_meal_by_id meal_id d).1
  | Get_meal_by_name meal_name => error_of (get_meal_by_name meal_name d).1
  | Update_meal_stats meal_id result => error_of (update_meal_stats meal_id result d).1
  end.

(** The calls that write to the table. *)
Definition writes (c : call) : bool :=
  match c with
  | Create_meal _ _ _ _ | Delete_meal _ | Update_meal_stats _ _ => true
  | _ => false
  end.

(** A price that the REAL column keeps as it is passed: any float, and an
    int within SQLite's INTEGER. *)
Definition price_fits (price : pyval) : Prop :=
  match price with
  | PyInt z => z < 2 ^ 63
  | _ => True
  end.

(** [price >= 0] for the price a Meal is built with; it does not hold of a
    value that is not a number. *)
Definition price_not_negative (price : pyval) : Prop :=
  match price with
  | PyFloat f => (f <? 0)%float = false
  | PyInt z => 0 ≤ z
  | _ => False
  end.

(** The events a call adds to the trace. *)
Definition events (d : db) (c : call) : list event :=
  drop (length (trace d)) (trace (step d c)).

(** The row [r'] is the row [r] some calls later: the same name, cuisine,
    price and difficulty, no fewer battles and wins, not more new wins than
    new battles, and still deleted if [r] was. *)
Definition later_row (r r' : row) : Prop :=
  r_meal r' = r_meal r ∧ r_cuisine r' = r_cuisine r ∧
  r_price r' = r_price r ∧ r_difficulty r' = r_difficulty r ∧
  0 ≤ r_wins r' - r_wins r ≤ r_battles r' - r_battles r ∧
  (r_deleted r = true → r' = r).

(** [price < 0] for the price a Meal is built with. *)
Definition price_below_zero (price : pyval) : Prop :=
  match price with
  | PyFloat f => (f <? 0)%float = true
  | PyInt z => z < 0
  | _ => False
  end.

(** ** White space *)

(** Every character of the string is white space. *)
Fixpoint all_space (s : string) : bool :=
  match s with
  | String c s' => isspace c && all_space s'
  | EmptyString => true
  end.

(** The string neither begins nor ends with white space. *)
Definition trimmed (s : string) : Prop :=
  (∀ c s', s = String c s' → isspace c = false) ∧
  (∀ s' c, s = s' +:+ String c EmptyString → isspace c = false).

(** Whether the scan of [re.sub] is inside a run of white space after
    reading [s], having begun with [in_run]. *)
Fixpoint run_after (s : string) (in_run : bool) : bool :=
  match s with
  | String c s' => run_after s' (isspace c)
  | EmptyString => in_run
  end.

(** * Properties *)

(** ** Doubles: the order is a total preorder *)

Ltac compare_cases :=
  repeat match goal with
  | H : context [Pos.compare_cont Eq ?a ?b] |- _ =>
      change (Pos.compare_cont Eq a b) with (Pos.compare a b) in H
  | |- context [Pos.compare_cont Eq ?a ?b] =>
      change (Pos.compare_cont Eq a b) with (Pos.compare a b)
  | H : context [Z.compare ?a ?b] |- _ => destruct (Z.compare_spec a b)
  | |- context [Z.compare ?a ?b] => destruct (Z.compare_spec a b)
  | H : context [Pos.compare ?a ?b] |- _ => destruct (Pos.compare_spec a b)
  | |- context [Pos.compare ?a ?b] => destruct (Pos.compare_spec a b)
  end.

Module RealFacts.

Lemma SFeqb_refl x : SFeqb x x = negb (sf_is_nan x).
Proof.
  destruct x as [[]|[]| |[] m e]; try reflexivity;
    unfold SFeqb, SFcompare; compare_cases; simpl; try reflexivity; lia.
Qed.

Lemma is_nan_spec f : is_nan f = sf_is_nan (Prim2SF f).
Proof.
  unfold is_nan. rewrite FloatAxioms.eqb_spec, SFeqb_refl. apply negb_involutive.
Qed.

Lemma SFleb_total x y :
  sf_is_nan x = false → sf_is_nan y = false →
  SFleb x y = true ∨ SFleb y x = true.
Proof.
  destruct x as [[]|[]| |[] m1 e1], y as [[]|[]| |[] m2 e2];
    try discriminate; intros _ _; unfold SFleb, SFcompare;
    try (left; reflexivity); try (right; reflexivity);
    compare_cases; simpl; try (left; reflexivity); try (right; reflexivity); lia.
Qed.

Lemma SFleb_nan_r x y : SFleb x y = true → sf_is_nan y = false.
Proof. destruct x as [[]|[]| |[] ? ?], y as [[]|[]| |[] ? ?]; done. Qed.

Lemma SFleb_trans x y z :
  SFleb x y = true → SFleb y z = true → SFleb x z = true.
Proof.
  destruct x as [[]|[]| |[] m1 e1], y as [[]|[]| |[] m2 e2],
    z as [[]|[]| |[] m3 e3];
    unfold SFleb, SFcompare; try discriminate; try reflexivity;
    intros H1 H2; compare_cases; simpl in *; try discriminate;
    try reflexivity; lia.
Qed.

Lemma le_total a b : Real.le a b = true ∨ Real.le b a = true.
Proof.
  unfold Real.le. rewrite !is_nan_spec, !FloatAxioms.leb_spec.
  destruct (sf_is_nan (Prim2SF a)) eqn:Ha; [by left|].
  destruct (sf_is_nan (Prim2SF b)) eqn:Hb; [by right|].
  simpl. by apply SFleb_total.
Qed.

Lemma le_trans a b c :
  Real.le a b = true → Real.le b c = true → Real.le a c = true.
Proof.
  unfold Real.le. rewrite !is_nan_spec, !FloatAxioms.leb_spec.
  destruct (sf_is_nan (Prim2SF a)) eqn:Ha; [done|]. simpl.
  intros Hab Hbc. pose proof (SFleb_nan_r _ _ Hab) as Hb.
  rewrite Hb in Hbc. simpl in Hbc. by eapply SFleb_trans.
Qed.

(** On numbers the order is the comparison of doubles. *)
Lemma le_leb a b : is_nan a = false → Real.le a b = (a <=? b)%float.
Proof. unfold Real.le. by intros ->. Qed.

(** A number that is not below zero is at least zero. *)
Lemma not_ltb_zero x :
  is_nan x = false → (x <? 0)%float = false → (0 <=? x)%float = true.
Proof.
  rewrite is_nan_spec, FloatAxioms.ltb_spec, FloatAxioms.leb_spec.
  change (Prim2SF 0) with (S754_zero false).
  by destruct (Prim2SF x) as [[]|[]| |[] ? ?].
Qed.

(** Multiplication by one leaves a double as it is. *)
Lemma SFmul_one x :
  valid_binary x = true → SFmul prec emax x (Prim2SF 1) = x.
Proof.
  change (Prim2SF 1) with (S754_finite false 4503599627370496 (-52)).
  destruct x as [[]|[]| |s m e]; try reflexivity.
  unfold SpecFloat.valid_binary, bounded, canonical_mantissa.
  intros [Hc Hb]%andb_prop. apply Z.eqb_eq in Hc.
  unfold SFmul. rewrite Pos.mul_comm.
  unfold binary_round_aux, shr_fexp.
  set (M := (4503599627370496 * m)%positive).
  assert (HM : Zdigits2 (Zpos M) = Zpos (digits2_pos m) + 52).
  { unfold M. cbv [Pos.mul]. cbn [Zdigits2 digits2_pos].
    rewrite !Pos2Z.inj_succ. lia. }
  rewrite HM.
  replace (fexp prec emax (Z.pos (digits2_pos m) + 52 + (e + -52)) - (e + -52))
    with 52 by (unfold fexp, SpecFloat.emin, prec, emax in *; lia).
  unfold M. cbv [Pos.mul]. cbn [shr shr_record_of_loc SpecFloat.iter_pos shr_1 orb].
  cbn [loc_of_shr_record shr_m round_nearest_even].
  replace (e + -52 + 52) with e by lia.
  cbn [Zdigits2]. rewrite Hc, Z.sub_diag. cbn [shr shr_record_of_loc shr_m].
  rewrite Hb. by destruct s.
Qed.

Lemma mul_one x : (x * 1)%float = x.
Proof.
  apply Prim2SF_inj. rewrite mul_spec. apply SFmul_one, Prim2SF_valid.
Qed.

(** *** Integers as doubles *)

Lemma digits2_pos_bounds p :
  2 ^ (Zpos (digits2_pos p) - 1) ≤ Zpos p < 2 ^ Zpos (digits2_pos p).
Proof.
  induction p as [p IH|p IH|]; cbn [digits2_pos]; [| |simpl; lia];
    rewrite Pos2Z.inj_succ;
    replace (Z.succ (Zpos (digits2_pos p)) - 1) with (Z.succ (Zpos (digits2_pos p) - 1)) by lia;
    rewrite !Z.pow_succ_r by lia; lia.
Qed.

Lemma Zdigits2_unique m k :
  0 < k → 2 ^ (k - 1) ≤ Zpos m < 2 ^ k → Zpos (digits2_pos m) = k.
Proof.
  intros Hk [H1 H2]. destruct (digits2_pos_bounds m) as [H3 H4].
  set (d := Zpos (digits2_pos m)) in *.
  assert (Hd : 0 < d) by (unfold d; lia).
  destruct (Z.lt_trichotomy d k) as [Hlt|[Heq|Hgt]]; [|done|].
  - assert (2 ^ d ≤ 2 ^ (k - 1)) by (apply Z.pow_le_mono_r; lia). lia.
  - assert (2 ^ k ≤ 2 ^ (d - 1)) by (apply Z.pow_le_mono_r; lia). lia.
Qed.

Lemma shr_1_m r : 0 ≤ shr_m r → shr_m (shr_1 r) = shr_m r / 2.
Proof.
  destruct r as [[|[p|p|]|p] rb sb]; simpl; intros H; try done; try lia.
  - rewrite Pos2Z.inj_xI. apply Z.div_unique with 1; lia.
  - rewrite Pos2Z.inj_xO. apply Z.div_unique with 0; lia.
Qed.

Lemma iter_shr_1_m n r :
  0 ≤ shr_m r → shr_m (SpecFloat.iter_pos shr_1 n r) = shr_m r / 2 ^ Zpos n.
Proof.
  revert r. induction n as [n IH|n IH|]; intros r Hr; cbn [SpecFloat.iter_pos].
  - assert (H1 : 0 ≤ shr_m (shr_1 r)) by (rewrite shr_1_m by done; apply Z.div_pos; lia).
    assert (H2 : 0 ≤ shr_m (SpecFloat.iter_pos shr_1 n (shr_1 r)))
      by (rewrite IH by done; apply Z.div_pos; lia).
    rewrite IH, IH, shr_1_m by done.
    rewrite !Z.div_div by lia. f_equal.
    rewrite Pos2Z.inj_xI, Z.pow_add_r, Z.pow_mul_r, <- Z.pow_add_r by lia.
    replace (Zpos n + Zpos n) with (2 * Zpos n) by lia.
    rewrite Z.pow_mul_r by lia. simpl (2 ^ 1). simpl (2^2). lia.
  - assert (H2 : 0 ≤ shr_m (SpecFloat.iter_pos shr_1 n r))
      by (rewrite IH by done; apply Z.div_pos; lia).
    rewrite IH, IH by done. rewrite Z.div_div by lia. f_equal.
    rewrite Pos2Z.inj_xO, <- Z.pow_add_r by lia. f_equal. lia.
  - rewrite shr_1_m by done. done.
Qed.

Lemma shr_m_shr r e n :
  0 ≤ n → 0 ≤ shr_m r →
  shr_m (shr r e n).1 = shr_m r / 2 ^ n ∧ (shr r e n).2 = e + n.
Proof.
  intros Hn Hr. destruct n as [|n|n]; [| |lia]; simpl.
  - rewrite Z.div_1_r. split; [done|lia].
  - split; [|done]. by apply iter_shr_1_m.
Qed.

Lemma shr_m_record_of_loc m l : shr_m (shr_record_of_loc m l) = m.
Proof. by destruct l as [|[]]. Qed.

Lemma round_nearest_even_bounds m l :
  m ≤ round_nearest_even m l ≤ m + 1.
Proof. destruct l as [|[]]; simpl; try lia. destruct (Z.even m); lia. Qed.

(** Rounding a mantissa of at least 53 bits whose exponent lies in the
    normal range yields a finite number. *)
Lemma binary_round_aux_finite s m e l :
  let d := Zpos (digits2_pos m) in
  53 ≤ d → -1074 ≤ d + e - 53 → d + e - 53 + 1 ≤ 971 →
  ∃ m' e', binary_round_aux prec emax s (Zpos m) e l = S754_finite s m' e'.
Proof.
  intros d Hd Hlo Hhi. unfold binary_round_aux, shr_fexp.
  destruct (digits2_pos_bounds m) as [Hm1 Hm2]. fold d in Hm1, Hm2.
  cbn [Zdigits2]. fold d.
  replace (fexp prec emax (d + e) - e) with (d - 53)
    by (unfold fexp, SpecFloat.emin, prec, emax; lia).
  destruct (shr_m_shr (shr_record_of_loc (Zpos m) l) e (d - 53)) as [H1 H2];
    [lia|by rewrite shr_m_record_of_loc|].
  rewrite shr_m_record_of_loc in H1.
  destruct (shr _ e (d - 53)) as [r1 e1]. simpl in H1, H2. subst e1.
  set (m1 := shr_m r1) in *.
  assert (Hm1' : 2 ^ 52 ≤ m1 < 2 ^ 53).
  { rewrite H1. split.
    - apply Z.div_le_lower_bound; [lia|]. rewrite <- Z.pow_add_r by lia.
      replace (d - 53 + 52) with (d - 1) by lia. done.
    - apply Z.div_lt_upper_bound; [lia|]. rewrite <- Z.pow_add_r by lia.
      replace (d - 53 + 53) with d by lia. done. }
  pose proof (round_nearest_even_bounds m1 (loc_of_shr_record r1)) as Hr.
  set (m2 := round_nearest_even m1 (loc_of_shr_record r1)) in *.
  destruct m2 as [|p2|p2] eqn:Hp2; [lia| |lia].
  cbn [Zdigits2].
  destruct (decide (Zpos p2 < 2 ^ 53)) as [Hlt|Hge].
  - rewrite (Zdigits2_unique p2 53) by (simpl; lia).
    replace (fexp prec emax (53 + (e + (d - 53))) - (e + (d - 53))) with 0
      by (unfold fexp, SpecFloat.emin, prec, emax; lia).
    simpl. rewrite (proj2 (Z.leb_le _ _)) by (unfold emax, prec; lia). eauto.
  - assert (Heq : Zpos p2 = 2 ^ 53) by lia.
    rewrite (Zdigits2_unique p2 54) by (simpl; lia).
    replace (fexp prec emax (54 + (e + (d - 53))) - (e + (d - 53))) with 1
      by (unfold fexp, SpecFloat.emin, prec, emax; lia).
    injection Heq as ->. simpl.
    rewrite (proj2 (Z.leb_le _ _)) by (unfold emax, prec; lia). eauto.
Qed.

Lemma digits2_pos_iter_xO p k :
  Zpos (digits2_pos (Pos.iter xO p k)) = Zpos (digits2_pos p) + Zpos k.
Proof.
  induction k as [|k IH] using Pos.peano_ind.
  - simpl. lia.
  - rewrite Pos.iter_succ. cbn [digits2_pos]. lia.
Qed.

(** The double nearest to a positive integer below [2^63] is a finite
    number. *)
Lemma binary_normalize_finite p :
  Zpos p < 2 ^ 63 →
  ∃ m e, binary_normalize prec emax (Zpos p) 0 false = S754_finite false m e.
Proof.
  intros Hp. unfold binary_normalize, binary_round, shl_align.
  destruct (digits2_pos_bounds p) as [Hp1 Hp2].
  set (d := Zpos (digits2_pos p)) in *.
  assert (Hd : 1 ≤ d ≤ 63).
  { split; [unfold d; lia|].
    destruct (decide (d ≤ 63)); [done|].
    assert (2 ^ 63 ≤ 2 ^ (d - 1)) by (apply Z.pow_le_mono_r; lia). lia. }
  replace (fexp prec emax (d + 0) - 0) with (d - 53)
    by (unfold fexp, SpecFloat.emin, prec, emax; lia).
  replace (fexp prec emax (d + 0)) with (d - 53)
    by (unfold fexp, SpecFloat.emin, prec, emax; lia).
  destruct (d - 53) as [|k|k] eqn:Hk.
  - apply binary_round_aux_finite; fold d; lia.
  - apply binary_round_aux_finite; fold d; lia.
  - apply binary_round_aux_finite; rewrite digits2_pos_iter_xO; fold d; lia.
Qed.

Lemma shr_nonneg r e n : 0 ≤ shr_m r → 0 ≤ shr_m (shr r e n).1.
Proof.
  intros Hr. destruct n as [|n|n]; simpl; try done.
  rewrite iter_shr_1_m by done. apply Z.div_pos; lia.
Qed.

(** Rounding a mantissa that is not negative never yields a NaN. *)
Lemma binary_round_aux_number s m e l :
  0 ≤ m → sf_is_nan (binary_round_aux prec emax s m e l) = false.
Proof.
  intros Hm. unfold binary_round_aux, shr_fexp.
  pose proof (shr_nonneg (shr_record_of_loc m l) e
                (fexp prec emax (Zdigits2 m + e) - e)) as H1.
  rewrite shr_m_record_of_loc in H1. specialize (H1 Hm).
  destruct (shr _ e _) as [r1 e1]. simpl in H1.
  pose proof (round_nearest_even_bounds (shr_m r1) (loc_of_shr_record r1)) as Hr.
  set (m2 := round_nearest_even _ _) in *.
  pose proof (shr_nonneg (shr_record_of_loc m2 loc_Exact) e1
                (fexp prec emax (Zdigits2 m2 + e1) - e1)) as H2.
  rewrite shr_m_record_of_loc in H2.
  destruct (shr _ e1 _) as [r2 e2]. simpl in H2.
  destruct (shr_m r2) as [|p|p]; [done| |lia].
  by destruct (e2 <=? emax - prec).
Qed.

Lemma SFdiv_number x y my ey :
  sf_is_nan x = false → y = S754_finite false my ey →
  (∀ s, x ≠ S754_infinity s) →
  sf_is_nan (SFdiv prec emax x y) = false.
Proof.
  intros Hx -> Hinf. destruct x as [s|s| |s mx ex]; [done| |done|].
  - exfalso. by apply (Hinf s).
  - unfold SFdiv, SFdiv_core_binary.
    set (m' := match _ with Z0 => _ | Zpos _ => _ | Zneg _ => _ end).
    assert (Hm' : 0 ≤ m').
    { unfold m'. destruct (_ - _ - _); try lia. apply Z.shiftl_nonneg. lia. }
    pose proof (Z.div_pos m' (Zpos my) Hm' ltac:(lia)) as Hq.
    unfold Z.div in Hq. destruct (Z.div_eucl m' (Zpos my)) as [q r].
    by apply binary_round_aux_number.
Qed.

(** On SQLite's non-negative integers the conversion is the one of the
    processor. *)
Lemma of_int_spec z :
  0 ≤ z < 2 ^ 63 →
  Prim2SF (Real.of_int z) = binary_normalize prec emax z 0 false.
Proof.
  intros Hz. unfold Real.of_int.
  pose proof (of_uint63_spec (Uint63.of_Z z)) as H.
  rewrite Uint63.of_Z_spec, Z.mod_small in H by (change Uint63.wB with (2 ^ 63); lia).
  by rewrite <- H, SF2Prim_Prim2SF.
Qed.

(** The quotient of a non-negative integer by a positive one, both within
    SQLite's INTEGER, is a number: the NULL that SQLite puts for a NaN does
    not arise in the [win_pct] column. *)
Lemma ratio_number w b :
  0 ≤ w < 2 ^ 63 → 0 < b < 2 ^ 63 →
  is_nan (Real.of_int w / Real.of_int b) = false.
Proof.
  intros Hw Hb. rewrite is_nan_spec, div_spec, !of_int_spec by lia.
  destruct b as [|pb|pb]; [lia| |lia].
  destruct (binary_normalize_finite pb) as (m & e & Hfin); [lia|].
  eapply SFdiv_number; [|done|].
  - destruct w as [|pw|pw]; [done| |lia].
    by destruct (binary_normalize_finite pw) as (m' & e' & ->); [lia|].
  - intros s. destruct w as [|pw|pw]; [done| |lia].
    by destruct (binary_normalize_finite pw) as (m' & e' & ->); [lia|].
Qed.

(** A number above zero is not at most zero. *)
Lemma ltb_zero_not_leb x : (0 <? x)%float = true → (x <=? 0)%float = false.
Proof.
  rewrite FloatAxioms.ltb_spec, FloatAxioms.leb_spec.
  change (Prim2SF 0) with (S754_zero false).
  by destruct (Prim2SF x) as [[]|[]| |[] ? ?].
Qed.

End RealFacts.

(** ** What each function does to the database *)

Lemma check_not_deleted_eq meal_id d :
  check_not_deleted meal_id d =
  match meals d !! meal_id with
  | None =>
      if fits_int64 meal_id
      then (Raise (ValueError (Id_not_found meal_id)),
            traced d [Connect; Execute (SELECT_deleted meal_id)])
      else (Raise OverflowError, traced d [Connect])
  | Some r =>
      (if r_deleted r then Raise (ValueError (Id_has_been_deleted meal_id))
       else Ok tt,
       traced d [Connect; Execute (SELECT_deleted meal_id)])
  end.
Proof.
  unfold check_not_deleted, get_db_connection, execute_select_deleted,
    bind_id, bind, try_except, emit, query, lift, ret, raise, traced;
    cbn [meals trace].
  destruct (meals d !! meal_id) as [r|] eqn:Hr.
  - rewrite bool_decide_eq_true_2, orb_true_r by done.
    cbn [meals trace fmap option_fmap option_map first_column].
    rewrite Hr, <- app_assoc; simpl. by destruct (r_deleted r).
  - rewrite bool_decide_eq_false_2, orb_false_r by (by intros [? ?]).
    destruct (fits_int64 meal_id); [|done].
    cbn [meals trace fmap option_fmap option_map first_column].
    by rewrite Hr, <- app_assoc.
Qed.

Lemma delete_meal_eq meal_id d :
  delete_meal meal_id d =
  match meals d !! meal_id with
  | None =>
      if fits_int64 meal_id
      then (Raise (ValueError (Id_not_found meal_id)),
            traced d [Connect; Execute (SELECT_deleted meal_id)])
      else (Raise OverflowError, traced d [Connect])
  | Some r =>
      if r_deleted r
      then (Raise (ValueError (Id_has_been_deleted meal_id)),
            traced d [Connect; Execute (SELECT_deleted meal_id)])
      else (Ok tt,
            changed d (<[meal_id := set_deleted r]> (meals d))
              [Connect; Execute (SELECT_deleted meal_id);
               Execute (UPDATE_SET_deleted meal_id); Commit])
  end.
Proof.
  unfold delete_meal, bind at 1. rewrite check_not_deleted_eq.
  destruct (meals d !! meal_id) as [r|] eqn:Hr;
    [|by destruct (fits_int64 meal_id)].
  destruct (r_deleted r); [done|].
  unfold bind, execute_update_deleted, bind, emit, modify, commit, emit,
    traced, changed; simpl.
  rewrite <- !app_assoc; simpl. do 2 f_equal.
  apply map_eq; intros j. rewrite lookup_alter, lookup_insert.
  repeat case_decide; subst; try done. by rewrite Hr.
Qed.

Lemma update_meal_stats_eq meal_id result d :
  update_meal_stats meal_id result d =
  match meals d !! meal_id with
  | None =>
      if fits_int64 meal_id
      then (Raise (ValueError (Id_not_found meal_id)),
            traced d [Connect; Execute (SELECT_deleted meal_id)])
      else (Raise OverflowError, traced d [Connect])
  | Some r =>
      if r_deleted r
      then (Raise (ValueError (Id_has_been_deleted meal_id)),
            traced d [Connect; Execute (SELECT_deleted meal_id)])
      else if decide (result = "win"%string)
      then (Ok tt,
            changed d (<[meal_id := add_win r]> (meals d))
              [Connect; Execute (SELECT_deleted meal_id);
               Execute (UPDATE_SET_battles_wins meal_id); Commit])
      else if decide (result = "loss"%string)
      then (Ok tt,
            changed d (<[meal_id := add_loss r]> (meals d))
              [Connect; Execute (SELECT_deleted meal_id);
               Execute (UPDATE_SET_battles meal_id); Commit])
      else (Raise (ValueError (Invalid_result result)),
            traced d [Connect; Execute (SELECT_deleted meal_id)])
  end.
Proof.
  unfold update_meal_stats, bind at 1. rewrite check_not_deleted_eq.
  destruct (meals d !! meal_id) as [r|] eqn:Hr;
    [|by destruct (fits_int64 meal_id)].
  destruct (r_deleted r); [done|].
  unfold bind at 1.
  destruct (decide (result = "win"%string)); [|destruct (decide (result = "loss"%string))];
    [| |done];
    unfold execute_update_win, execute_update_loss, bind, emit, modify, commit,
      emit, traced, changed; simpl;
    rewrite <- !app_assoc; simpl; do 2 f_equal;
    apply map_eq; intros j; rewrite lookup_alter, lookup_insert;
    repeat case_decide; subst; try done; by rewrite Hr.
Qed.

Lemma execute_insert_eq meal cuisine x difficulty d :
  execute_insert meal cuisine x difficulty d =
  if decide (map_Exists (λ _ r, r_meal r = meal) (meals d))
  then (Raise IntegrityError,
        traced d [Execute (INSERT_INTO_meals meal cuisine x difficulty)])
  else (Ok tt,
        changed d
          (<[next_rowid (meals d) := new_row meal cuisine x difficulty]> (meals d))
          [Execute (INSERT_INTO_meals meal cuisine x difficulty)]).
Proof.
  unfold execute_insert, bind, emit, query, modify, raise, traced, changed; simpl.
  unfold bool_decide, decide. by destruct (map_Exists_dec _ _).
Qed.

Lemma create_meal_eq meal cuisine price difficulty d :
  create_meal meal cuisine price difficulty d =
  match checked_price price with
  | None => (Raise (ValueError (Invalid_price price)), d)
  | Some x =>
      if decide (difficulty ∉ levels)
      then (Raise (ValueError (Invalid_difficulty difficulty)), d)
      else if negb (binds price)
      then (Raise OverflowError, traced d [Connect])
      else if decide (map_Exists (λ _ r, r_meal r = meal) (meals d))
      then (Raise (ValueError (Meal_already_exists meal)),
            traced d [Connect; Execute (INSERT_INTO_meals meal cuisine x difficulty)])
      else (Ok tt,
            changed d
              (<[next_rowid (meals d) := new_row meal cuisine x difficulty]> (meals d))
              [Connect; Execute (INSERT_INTO_meals meal cuisine x difficulty); Commit])
  end.
Proof.
  unfold create_meal. destruct (checked_price price) as [x|]; [|done].
  destruct (decide (difficulty ∉ levels)); [done|].
  unfold try_except, bind at 1, get_db_connection, emit at 1.
  unfold bind at 1, bind_price.
  destruct (binds price); [|done]. simpl.
  unfold bind at 1. rewrite execute_insert_eq. simpl.
  destruct (decide (map_Exists _ _)); unfold raise, commit, emit, traced, changed; simpl;
    rewrite <- ?app_assoc; done.
Qed.

Lemma get_meal_by_id_eq meal_id d :
  get_meal_by_id meal_id d =
  match meals d !! meal_id with
  | None =>
      if fits_int64 meal_id
      then (Raise (ValueError (Id_not_found meal_id)),
            traced d [Connect; Execute (SELECT_meal_WHERE_id meal_id)])
      else (Raise OverflowError, traced d [Connect])
  | Some r =>
      (if r_deleted r then Raise (ValueError (Id_has_been_deleted meal_id))
       else Meal_init meal_id (r_meal r) (r_cuisine r) (py_of_real (r_price r))
              (r_difficulty r),
       traced d [Connect; Execute (SELECT_meal_WHERE_id meal_id)])
  end.
Proof.
  unfold get_meal_by_id, get_db_connection, execute_select_by_id,
    bind_id, bind, emit, query, meal_of_row, lift, ret, raise, traced;
    cbn [meals trace].
  destruct (meals d !! meal_id) as [r|] eqn:Hr.
  - rewrite bool_decide_eq_true_2, orb_true_r by done.
    cbn [meals trace fmap option_fmap option_map].
    rewrite Hr, <- app_assoc; simpl. by destruct (r_deleted r).
  - rewrite bool_decide_eq_false_2, orb_false_r by (by intros [? ?]).
    destruct (fits_int64 meal_id); [|done].
    cbn [meals trace fmap option_fmap option_map].
    by rewrite Hr, <- app_assoc.
Qed.

Lemma get_meal_by_name_eq meal_name d :
  get_meal_by_name meal_name d =
  (match head (filter (λ p, r_meal p.2 = meal_name) (scan (meals d))) with
   | None => Raise (ValueError (Name_not_found meal_name))
   | Some (id, r) =>
       if r_deleted r then Raise (ValueError (Name_has_been_deleted meal_name))
       else Meal_init id (r_meal r) (r_cuisine r) (py_of_real (r_price r))
              (r_difficulty r)
   end,
   traced d [Connect; Execute (SELECT_meal_WHERE_meal meal_name)]).
Proof.
  unfold get_meal_by_name, bind, get_db_connection, execute_select_by_name, bind,
    emit, query, meal_of_row, raise, lift, traced; simpl.
  rewrite <- app_assoc; simpl.
  destruct (head _) as [[id r]|]; simpl; [|done].
  by destruct (r_deleted r).
Qed.

Lemma get_leaderboard_meals sort_by d : meals (get_leaderboard sort_by d).2 = meals d.
Proof.
  unfold get_leaderboard, bind at 1.
  destruct (decide (sort_by = "win_pct"%string)); [done|].
  by destruct (decide (sort_by = "wins"%string)).
Qed.

(** ** Validation of the arguments of [create_meal] *)

Lemma checked_price_invalid price :
  isinstance_int_float price = false ∨ price_le_zero price →
  checked_price price = None.
Proof.
  unfold checked_price.
  destruct price as [f|z| |]; simpl; intros [H|H]; try done.
  - by rewrite H.
  - by rewrite (proj2 (Z.leb_le z 0) H).
Qed.

Lemma checked_price_valid price :
  price_positive price → ∃ x, checked_price price = Some x.
Proof.
  unfold checked_price.
  destruct price as [f|z| |]; simpl; intros H; try done.
  - rewrite (RealFacts.ltb_zero_not_leb _ H). eauto.
  - rewrite (proj2 (Z.leb_gt z 0) H). eauto.
Qed.

(** C8.  A call of [create_meal] whose price is not an int or a float, or
    is at most zero, or whose difficulty is not LOW, MED or HIGH, raises a
    ValueError of the kind InvalidArgument and returns the database as it
    received it: no row is inserted and the trace of the connection is the
    same, so the store was not contacted. *)
Theorem create_meal_invalid_argument meal cuisine price difficulty d :
  isinstance_int_float price = false ∨ price_le_zero price ∨ difficulty ∉ levels →
  ∃ e, create_meal meal cuisine price difficulty d = (Raise e, d) ∧
       kind_of e = Some InvalidArgument.
Proof.
  intros H. rewrite create_meal_eq.
  destruct (checked_price price) as [x|] eqn:Hx.
  - destruct (decide (difficulty ∉ levels)) as [|Hin]; [by eexists|].
    destruct H as [H|[H|H]]; [| |done];
      rewrite checked_price_invalid in Hx by auto; done.
  - by eexists.
Qed.

Lemma create_meal_invalid_argument_witness :
  ∃ e, create_meal "Soup" "French" (PyFloat 0) "LOW" empty_db = (Raise e, empty_db) ∧
       kind_of e = Some InvalidArgument.
Proof.
  apply create_meal_invalid_argument. right; left; reflexivity.
Defined.

(** A price that is not at most zero is bound exactly when, if it is an int,
    it is below 2^63. *)
Lemma binds_not_le_zero price :
  ¬ price_le_zero price → binds price = true ↔ price_fits price.
Proof.
  destruct price as [f|z| |]; simpl; try done.
  unfold fits_int64. intros Hz.
  rewrite andb_true_iff, Z.leb_le, Z.ltb_lt. lia.
Qed.

Lemma binds_price_fits price :
  price_positive price → binds price = true ↔ price_fits price.
Proof.
  intros Hp. apply binds_not_le_zero.
  destruct price as [f|z| |]; simpl in *; try done; [|lia].
  by rewrite (RealFacts.ltb_zero_not_leb _ Hp).
Qed.



(** ** The outcome of a battle *)

(** C2.  On a row that exists and is not deleted, [update_meal_stats] with
    'win' returns and leaves the row with [battles] and [wins] each one
    more, with 'loss' returns and leaves the row with [battles] one more
    and [wins] as it was; the other columns of the row and every other row
    are as before. *)
Theorem update_meal_stats_counts d meal_id r :
  meals d !! meal_id = Some r → r_deleted r = false →
  let won := update_meal_stats meal_id "win" d in
  let lost := update_meal_stats meal_id "loss" d in
  won.1 = Ok tt ∧
  meals won.2 !! meal_id =
    Some {| r_meal := r_meal r; r_cuisine := r_cuisine r; r_price := r_price r;
            r_difficulty := r_difficulty r; r_battles := r_battles r + 1;
            r_wins := r_wins r + 1; r_deleted := false |} ∧
  (∀ j, j ≠ meal_id → meals won.2 !! j = meals d !! j) ∧
  lost.1 = Ok tt ∧
  meals lost.2 !! meal_id =
    Some {| r_meal := r_meal r; r_cuisine := r_cuisine r; r_price := r_price r;
            r_difficulty := r_difficulty r; r_battles := r_battles r + 1;
            r_wins := r_wins r; r_deleted := false |} ∧
  (∀ j, j ≠ meal_id → meals lost.2 !! j = meals d !! j).
Proof.
  intros Hr Hd. simpl. rewrite !update_meal_stats_eq, Hr, Hd.
  repeat (destruct (decide _); try done); simpl.
  unfold add_win, add_loss. rewrite Hd.
  repeat split; try apply lookup_insert_eq; intros j Hj; by apply lookup_insert_ne.
Qed.

Lemma update_meal_stats_counts_witness :
  meals demo !! 1 =
    Some {| r_meal := "Pizza"; r_cuisine := "Italian"; r_price := Some 15%float;
            r_difficulty := "MED"; r_battles := 3; r_wins := 2; r_deleted := false |} ∧
  meals (update_meal_stats 1 "win" demo).2 !! 1 =
    Some {| r_meal := "Pizza"; r_cuisine := "Italian"; r_price := Some 15%float;
            r_difficulty := "MED"; r_battles := 4; r_wins := 3; r_deleted := false |} ∧
  meals (update_meal_stats 1 "loss" demo).2 !! 1 =
    Some {| r_meal := "Pizza"; r_cuisine := "Italian"; r_price := Some 15%float;
            r_difficulty := "MED"; r_battles := 4; r_wins := 2; r_deleted := false |}.
Proof.
  split; [reflexivity|].
  pose proof (update_meal_stats_counts demo 1 _ eq_refl eq_refl) as H.
  exact (conj (proj1 (proj2 H)) (proj1 (proj2 (proj2 (proj2 (proj2 H)))))).
Defined.

(** C4, as the code has it.  With a result that is neither 'win' nor
    'loss' and an id that SQLite can hold (a 64-bit integer),
    [update_meal_stats] first reads the deleted flag of the row: the call
    leaves the table as it was and adds the connection and that one SELECT
    to the trace, no UPDATE and no commit.  It then raises NotFound when no
    row has the id, AlreadyDeleted when the row is deleted, and
    InvalidArgument when the row is there and not deleted.  An id outside
    64 bits, which no row has, is not bound to the SELECT: the call raises
    OverflowError, which is none of the kinds, after the connection alone,
    and the result is not looked at either. *)
Theorem update_meal_stats_invalid_result meal_id result d :
  result ≠ "win"%string → result ≠ "loss"%string →
  (fits_int64 meal_id = true →
   (update_meal_stats meal_id result d).2 =
     traced d [Connect; Execute (SELECT_deleted meal_id)] ∧
   ∃ e, (update_meal_stats meal_id result d).1 = Raise e ∧
        e = ValueError
              match meals d !! meal_id with
              | None => Id_not_found meal_id
              | Some r =>
                  if r_deleted r then Id_has_been_deleted meal_id
                  else Invalid_result result
              end ∧
        kind_of e = Some
              match meals d !! meal_id with
              | None => NotFound
              | Some r => if r_deleted r then AlreadyDeleted else InvalidArgument
              end) ∧
  (fits_int64 meal_id = false → meals d !! meal_id = None →
   update_meal_stats meal_id result d = (Raise OverflowError, traced d [Connect]) ∧
   kind_of OverflowError = None).
Proof.
  intros Hw Hl. rewrite update_meal_stats_eq. split.
  - intros ->. destruct (meals d !! meal_id) as [r|]; [|by eauto].
    destruct (r_deleted r); [by eauto|].
    destruct (decide (result = "win"%string)); [done|].
    destruct (decide (result = "loss"%string)); [done|].
    by eauto.
  - by intros -> ->.
Qed.

Lemma update_meal_stats_invalid_result_witness :
  update_meal_stats 1 "draw" demo =
    (Raise (ValueError (Invalid_result "draw")),
     traced demo [Connect; Execute (SELECT_deleted 1)]) ∧
  update_meal_stats (2 ^ 63) "draw" demo =
    (Raise OverflowError, traced demo [Connect]).
Proof.
  split.
  - pose proof (proj1 (update_meal_stats_invalid_result 1 "draw" demo
                         ltac:(discriminate) ltac:(discriminate)) eq_refl)
      as [H2 [e [H1 [He _]]]].
    rewrite (surjective_pairing (update_meal_stats 1 "draw" demo)), H1, H2, He.
    reflexivity.
  - exact (proj1 (proj2 (update_meal_stats_invalid_result (2 ^ 63) "draw" demo
                           ltac:(discriminate) ltac:(discriminate))
                    eq_refl eq_refl)).
Defined.

(** C4, as stated, fails: on the empty database the call with the id 9 and
    the result 'draw' raises "not found", of the kind NotFound, after the
    store has been asked for the row. *)
Lemma update_meal_stats_looks_up_first :
  update_meal_stats 9 "draw" empty_db =
    (Raise (ValueError (Id_not_found 9)),
     {| meals := ∅; trace := [Connect; Execute (SELECT_deleted 9)] |}) ∧
  kind_of (ValueError (Id_not_found 9)) ≠ Some InvalidArgument ∧
  ¬ (∀ meal_id result d,
       result ≠ "win"%string → result ≠ "loss"%string →
       ∃ e, update_meal_stats meal_id result d = (Raise e, d) ∧
            kind_of e = Some InvalidArgument).
Proof.
  split; [reflexivity|]. split; [discriminate|].
  intros H. destruct (H 9 "draw"%string empty_db) as [e [He _]]; discriminate.
Qed.

(** ** Construction of a Meal *)

(** C5, where the code departs from the claim: a Meal with the price 0.0 is
    constructed, the test of [__post_init__] being [price < 0]. *)
Theorem Meal_init_zero_price :
  Meal_init 4 "Salad" "Vegetarian" (PyFloat 0) "LOW" =
    Ok {| m_id := 4; m_meal := "Salad"; m_cuisine := "Vegetarian";
          m_price := PyFloat 0; m_difficulty := "LOW" |}.
Proof. reflexivity. Qed.

(** What [__post_init__] does enforce. *)
Lemma Meal_init_Ok id meal cuisine price difficulty m :
  Meal_init id meal cuisine price difficulty = Ok m →
  m = {| m_id := id; m_meal := meal; m_cuisine := cuisine; m_price := price;
         m_difficulty := difficulty |} ∧
  lt_zero price = Ok false ∧ difficulty ∈ levels.
Proof.
  unfold Meal_init, Meal_post_init; simpl.
  destruct (lt_zero price) as [[]|]; try done.
  destruct (decide (difficulty ∉ levels)) as [|Hin]; [done|].
  intros [= <-]. repeat split. by apply dec_stable.
Qed.

Lemma Meal_init_negative id meal cuisine price difficulty :
  lt_zero price = Ok true →
  Meal_init id meal cuisine price difficulty = Raise (ValueError Price_must_be_positive).
Proof. unfold Meal_init, Meal_post_init; simpl. by intros ->. Qed.

Lemma Meal_init_difficulty id meal cuisine price difficulty :
  difficulty ∉ levels →
  ∃ e, Meal_init id meal cuisine price difficulty = Raise e.
Proof.
  unfold Meal_init, Meal_post_init; simpl. intros H.
  destruct (lt_zero price) as [[]|]; eauto.
  destruct (decide (difficulty ∉ levels)); [eauto|done].
Qed.

(** ** The changes a call can make to the table *)

Lemma foldr_max_bound (l : list Z) x : x ∈ l → x ≤ foldr Z.max 0 l.
Proof.
  induction l as [|y l IH]; simpl; [by intros ?%not_elem_of_nil|].
  intros [->|H]%elem_of_cons; [lia|]. specialize (IH H). lia.
Qed.

Lemma next_rowid_above (tbl : gmap Z row) i r :
  tbl !! i = Some r → i < next_rowid tbl.
Proof.
  intros H. unfold next_rowid.
  assert (i ≤ foldr Z.max 0 (map_to_list tbl).*1); [|lia].
  apply foldr_max_bound, list_elem_of_fmap. exists (i, r).
  split; [done|]. by apply elem_of_map_to_list.
Qed.

Lemma next_rowid_fresh (tbl : gmap Z row) : tbl !! next_rowid tbl = None.
Proof.
  destruct (tbl !! next_rowid tbl) as [r|] eqn:H; [|done].
  apply next_rowid_above in H. lia.
Qed.

Lemma step_transition d c : transition (meals d) (meals (step d c)).
Proof.
  destruct c as [meal cuisine price difficulty|meal_id|sort_by|meal_id|meal_name
                |meal_id result]; simpl.
  - rewrite create_meal_eq.
    destruct (checked_price price) as [x|]; [|constructor].
    destruct (decide (difficulty ∉ levels)); [constructor|].
    destruct (binds price); cbn [negb]; [|constructor].
    destruct (decide (map_Exists _ _)) as [|Hfree]; [constructor|].
    by apply transition_insert.
  - rewrite delete_meal_eq.
    destruct (meals d !! meal_id) as [r|] eqn:Hr;
      [|destruct (fits_int64 meal_id); constructor].
    destruct (r_deleted r) eqn:Hd; [constructor|].
    eapply transition_update; [done..|set_solver].
  - rewrite get_leaderboard_meals. constructor.
  - rewrite get_meal_by_id_eq.
    destruct (meals d !! meal_id); [|destruct (fits_int64 meal_id)]; constructor.
  - rewrite get_meal_by_name_eq. constructor.
  - rewrite update_meal_stats_eq.
    destruct (meals d !! meal_id) as [r|] eqn:Hr;
      [|destruct (fits_int64 meal_id); constructor].
    destruct (r_deleted r) eqn:Hd; [constructor|].
    destruct (decide (result = "win"%string));
      [eapply transition_update; [done..|set_solver]|].
    destruct (decide (result = "loss"%string));
      [eapply transition_update; [done..|set_solver]|].
    constructor.
Qed.

(** An invariant of the table that every transition keeps holds after any
    history of calls. *)
Lemma run_invariant (P : gmap Z row → Prop) :
  (∀ tbl tbl', transition tbl tbl' → P tbl → P tbl') →
  ∀ cs d, P (meals d) → P (meals (run d cs)).
Proof.
  intros Hstep cs. induction cs as [|c cs IH]; intros d Hd; [done|].
  simpl. apply IH. eapply Hstep; [apply step_transition|done].
Qed.

(** ** The counters *)

Lemma transition_counters_ok tbl tbl' :
  transition tbl tbl' → counters_ok tbl → counters_ok tbl'.
Proof.
  intros [|meal cuisine x difficulty Hfree|id r f Hr Hd Hf] Hok i r'; [by apply Hok|..].
  - rewrite lookup_insert. case_decide; [|by apply Hok].
    intros [= <-]. simpl. lia.
  - rewrite lookup_insert. case_decide; [|by apply Hok].
    intros [= <-]. specialize (Hok _ _ Hr).
    set_unfold in Hf. destruct Hf as [->|[->|[->|[]]]]; simpl; lia.
Qed.

(** C6.  [create_meal], when it returns, has added one row, under a key
    that was free, with [battles] 0 and [wins] 0; every call (create,
    delete, update of the statistics, the lookups, the leaderboard),
    whether it returns or raises, takes a table in which every row has
    [0 <= wins <= battles] to a table of the same kind; hence that holds of
    every row after any history of calls on the empty database. *)
Theorem counters_invariant :
  (∀ meal cuisine price difficulty d d',
     create_meal meal cuisine price difficulty d = (Ok tt, d') →
     ∃ i r, meals d !! i = None ∧ meals d' = <[i := r]> (meals d) ∧
            r_meal r = meal ∧ r_battles r = 0 ∧ r_wins r = 0) ∧
  (∀ d c, counters_ok (meals d) → counters_ok (meals (step d c))) ∧
  (∀ d cs, counters_ok (meals d) → counters_ok (meals (run d cs))) ∧
  (∀ cs, counters_ok (meals (run empty_db cs))).
Proof.
  split; [|split; [|split]].
  - intros meal cuisine price difficulty d d'. rewrite create_meal_eq.
    destruct (checked_price price) as [x|]; [|done].
    destruct (decide (difficulty ∉ levels)); [done|].
    destruct (binds price); cbn [negb]; [|done].
    destruct (decide (map_Exists _ _)); [done|].
    intros [= <-]. eexists _, _. split; [apply next_rowid_fresh|]. by simpl.
  - intros d c. apply transition_counters_ok, step_transition.
  - intros d cs. apply run_invariant, transition_counters_ok.
  - intros cs. apply run_invariant; [apply transition_counters_ok|].
    intros i r. simpl. by rewrite lookup_empty.
Qed.

(** ** Invariants of the schema *)

Lemma rewritten_row_meal f r :
  f ∈ [set_deleted; add_win; add_loss] →
  r_meal (f r) = r_meal r ∧ r_price (f r) = r_price r.
Proof. set_unfold. by intros [->|[->|[->|[]]]]. Qed.

Lemma transition_unique_names tbl tbl' :
  transition tbl tbl' → unique_names tbl → unique_names tbl'.
Proof.
  intros [|meal cuisine x difficulty Hfree|id r f Hr Hd Hf] Hu i j ri rj; [by apply Hu|..].
  - rewrite !lookup_insert. repeat case_decide; subst; try done.
    + intros [= <-] Hj Hn. destruct Hfree. by exists j, rj.
    + intros Hi [= <-] Hn. destruct Hfree. by exists i, ri.
    + by apply Hu.
  - destruct (rewritten_row_meal f r Hf) as [Hm _].
    rewrite !lookup_insert. repeat case_decide; subst; try done.
    + intros [= <-] Hj. rewrite Hm. by apply Hu.
    + intros Hi [= <-]. rewrite Hm. by apply Hu.
    + by apply Hu.
Qed.

Lemma store_real_number x f : store_real x = Some f → is_nan f = false.
Proof. unfold store_real. destruct (is_nan x) eqn:H; [done|]. by intros [= <-]. Qed.

Lemma transition_prices_are_numbers tbl tbl' :
  transition tbl tbl' → prices_are_numbers tbl → prices_are_numbers tbl'.
Proof.
  intros [|meal cuisine x difficulty Hfree|id r f Hr Hd Hf] Hp i r' y; [by apply Hp|..].
  - rewrite lookup_insert. case_decide; [|by apply Hp].
    intros [= <-]. simpl. apply store_real_number.
  - destruct (rewritten_row_meal f r Hf) as [_ Hprice].
    rewrite lookup_insert. case_decide; [|by apply Hp].
    intros [= <-]. rewrite Hprice. by apply (Hp id).
Qed.

(** Both hold of every table that calls build from the empty one. *)
Lemma run_schema cs :
  unique_names (meals (run empty_db cs)) ∧
  prices_are_numbers (meals (run empty_db cs)).
Proof.
  split.
  - apply run_invariant; [apply transition_unique_names|].
    intros i j ri rj. simpl. by rewrite lookup_empty.
  - apply run_invariant; [apply transition_prices_are_numbers|].
    intros i r f. simpl. by rewrite lookup_empty.
Qed.

(** ** Lookup by name *)

Lemma scan_Permutation (tbl : gmap Z row) : scan tbl ≡ₚ map_to_list tbl.
Proof. apply merge_sort_Permutation. Qed.

Lemma elem_of_scan (tbl : gmap Z row) i r : (i, r) ∈ scan tbl ↔ tbl !! i = Some r.
Proof. rewrite scan_Permutation. apply elem_of_map_to_list. Qed.

Lemma select_by_name_Some (tbl : gmap Z row) name i r :
  head (filter (λ p, r_meal p.2 = name) (scan tbl)) = Some (i, r) →
  tbl !! i = Some r ∧ r_meal r = name.
Proof.
  intros H%head_Some_elem_of. apply list_elem_of_filter in H as [Hn H].
  by apply elem_of_scan in H.
Qed.

Lemma select_by_name_unique (tbl : gmap Z row) i r :
  unique_names tbl → tbl !! i = Some r →
  head (filter (λ p, r_meal p.2 = r_meal r) (scan tbl)) = Some (i, r).
Proof.
  intros Hu Hr.
  destruct (head _) as [[j r']|] eqn:Hhead.
  - apply select_by_name_Some in Hhead as [Hj Hn].
    assert (j = i) as -> by (by eapply Hu). congruence.
  - apply head_None in Hhead.
    assert (Hin : (i, r) ∈ filter (λ p : Z * row, r_meal p.2 = r_meal r) (scan tbl))
      by (apply list_elem_of_filter; split; [done|by apply elem_of_scan]).
    rewrite Hhead in Hin. by apply not_elem_of_nil in Hin.
Qed.

(** ** The soft delete *)

Lemma transition_deleted tbl tbl' i r :
  transition tbl tbl' → tbl !! i = Some r → r_deleted r = true →
  tbl' !! i = Some r.
Proof.
  intros [|meal cuisine x difficulty Hfree|id r' f Hr' Hd' Hf] Hr Hd; [done|..].
  - rewrite lookup_insert_ne; [done|].
    apply next_rowid_above in Hr. lia.
  - rewrite lookup_insert_ne; [done|]. intros ->. congruence.
Qed.

(** C3.  On a row that exists and is not deleted, [delete_meal] returns and
    leaves the row with [deleted] set and its other columns as they were.
    After that, whatever calls follow, the row stays exactly so, and each
    of [delete_meal], [get_meal_by_id], [update_meal_stats] (with any
    result) on the id, and [get_meal_by_name] on the name of the row,
    raises "has been deleted", of the kind AlreadyDeleted: none returns
    the record and none changes the table. *)
Theorem deleted_is_terminal d meal_id r :
  unique_names (meals d) →
  meals d !! meal_id = Some r → r_deleted r = false →
  let gone := {| r_meal := r_meal r; r_cuisine := r_cuisine r; r_price := r_price r;
                 r_difficulty := r_difficulty r; r_battles := r_battles r;
                 r_wins := r_wins r; r_deleted := true |} in
  (delete_meal meal_id d).1 = Ok tt ∧
  ∀ cs,
    let d' := run (delete_meal meal_id d).2 cs in
    let by_id := ValueError (Id_has_been_deleted meal_id) in
    let by_name := ValueError (Name_has_been_deleted (r_meal r)) in
    meals d' !! meal_id = Some gone ∧
    kind_of by_id = Some AlreadyDeleted ∧
    kind_of by_name = Some AlreadyDeleted ∧
    (delete_meal meal_id d').1 = Raise by_id ∧
    meals (delete_meal meal_id d').2 = meals d' ∧
    (get_meal_by_id meal_id d').1 = Raise by_id ∧
    meals (get_meal_by_id meal_id d').2 = meals d' ∧
    (get_meal_by_name (r_meal r) d').1 = Raise by_name ∧
    meals (get_meal_by_name (r_meal r) d').2 = meals d' ∧
    ∀ result,
      (update_meal_stats meal_id result d').1 = Raise by_id ∧
      meals (update_meal_stats meal_id result d').2 = meals d'.
Proof.
  intros Hu Hr Hd. simpl. rewrite delete_meal_eq, Hr, Hd. simpl.
  split; [done|]. intros cs.
  set (gone := set_deleted r).
  set (d1 := changed d (<[meal_id:=gone]> (meals d)) _).
  assert (Hgone : meals (run d1 cs) !! meal_id = Some gone).
  { apply (run_invariant (λ tbl, tbl !! meal_id = Some gone)).
    - intros tbl tbl' Ht H. by eapply transition_deleted.
    - apply lookup_insert_eq. }
  assert (Hu' : unique_names (meals (run d1 cs))).
  { apply run_invariant; [apply transition_unique_names|].
    apply (transition_unique_names (meals d)); [|done].
    eapply transition_update; [done..|set_solver]. }
  split; [done|]. split; [done|]. split; [done|].
  rewrite delete_meal_eq, get_meal_by_id_eq, get_meal_by_name_eq, Hgone.
  change (r_meal r) with (r_meal gone).
  rewrite (select_by_name_unique _ _ _ Hu' Hgone). simpl.
  repeat (split; [done|]).
  intros result. by rewrite update_meal_stats_eq, Hgone.
Qed.

Lemma deleted_is_terminal_witness :
  (delete_meal 3 demo).1 = Ok tt ∧
  (get_meal_by_name "Salad"
     (run (delete_meal 3 demo).2
        [Update_meal_stats 3 "win"; Create_meal "Salad" "Greek" (PyInt 9) "LOW";
         Delete_meal 3])).1 =
    Raise (ValueError (Name_has_been_deleted "Salad")).
Proof.
  assert (Hu : unique_names (meals demo)) by apply (run_schema _).
  pose proof (deleted_is_terminal demo 3 _ Hu eq_refl eq_refl) as [H1 H2].
  split; [exact H1|].
  exact (proj1 (proj2 (proj2 (proj2 (proj2 (proj2 (proj2 (proj2 (H2 _))))))))).
Defined.

(** ** The lookups validate what they read *)

Lemma lookup_validates i r :
  price_negative r ∨ r_difficulty r ∉ levels →
  ∃ e, (if r_deleted r then Raise (ValueError (Id_has_been_deleted i))
        else Meal_init i (r_meal r) (r_cuisine r) (py_of_real (r_price r))
               (r_difficulty r)) = Raise e.
Proof.
  intros H. destruct (r_deleted r); [by eauto|].
  destruct H as [[f [Hf Hneg]]|H].
  - rewrite Hf. simpl. rewrite Meal_init_negative; [by eauto|]. simpl. by rewrite Hneg.
  - by apply Meal_init_difficulty.
Qed.

Lemma validated_meal (tbl : gmap Z row) i r m :
  prices_are_numbers tbl → tbl !! i = Some r →
  Meal_init i (r_meal r) (r_cuisine r) (py_of_real (r_price r)) (r_difficulty r) = Ok m →
  ∃ f, m_price m = PyFloat f ∧ (0 <=? f)%float = true ∧ m_difficulty m ∈ levels.
Proof.
  intros Hp Hr (-> & Hlt & Hin)%Meal_init_Ok. simpl.
  destruct (r_price r) as [f|] eqn:Hf; [|done]. simpl in *.
  exists f. repeat split; [|done].
  apply RealFacts.not_ltb_zero; [by eapply Hp|congruence].
Qed.

(** C10.  A lookup of a row that is not deleted returns what the
    construction of a Meal from the columns of the row returns or raises.
    So for a stored row whose price is below zero or whose difficulty is
    not LOW, MED or HIGH, [get_meal_by_id] on its id and [get_meal_by_name]
    on its name raise; and every Meal that either lookup returns has a
    price that is a float at least zero and a difficulty among the three. *)
Theorem lookups_validate d :
  unique_names (meals d) → prices_are_numbers (meals d) →
  (∀ i r, meals d !! i = Some r → r_deleted r = false →
     (get_meal_by_id i d).1 =
       Meal_init i (r_meal r) (r_cuisine r) (py_of_real (r_price r)) (r_difficulty r) ∧
     (get_meal_by_name (r_meal r) d).1 =
       Meal_init i (r_meal r) (r_cuisine r) (py_of_real (r_price r)) (r_difficulty r)) ∧
  (∀ i r, meals d !! i = Some r →
     price_negative r ∨ r_difficulty r ∉ levels →
     (∃ e, (get_meal_by_id i d).1 = Raise e) ∧
     (∃ e, (get_meal_by_name (r_meal r) d).1 = Raise e)) ∧
  (∀ m, (∃ i, (get_meal_by_id i d).1 = Ok m) ∨
        (∃ name, (get_meal_by_name name d).1 = Ok m) →
     ∃ f, m_price m = PyFloat f ∧ (0 <=? f)%float = true ∧
          m_difficulty m ∈ levels).
Proof.
  intros Hu Hp. split; [|split].
  - intros i r Hr Hd.
    rewrite get_meal_by_id_eq, get_meal_by_name_eq, Hr,
      (select_by_name_unique _ _ _ Hu Hr). simpl. by rewrite Hd.
  - intros i r Hr Hbad.
    rewrite get_meal_by_id_eq, get_meal_by_name_eq, Hr,
      (select_by_name_unique _ _ _ Hu Hr). simpl.
    split; [by apply lookup_validates|].
    destruct (lookup_validates i r Hbad) as [e He].
    destruct (r_deleted r); by eauto.
  - intros m [[i H]|[name H]].
    + rewrite get_meal_by_id_eq in H.
      destruct (meals d !! i) as [r|] eqn:Hr; [|by destruct (fits_int64 i)].
      simpl in H. destruct (r_deleted r); [done|]. by eapply validated_meal.
    + rewrite get_meal_by_name_eq in H. simpl in H.
      destruct (head _) as [[i r]|] eqn:Hhead; [|done].
      apply select_by_name_Some in Hhead as [Hr _].
      destruct (r_deleted r); [done|]. by eapply validated_meal.
Qed.

Lemma lookups_validate_witness :
  (get_meal_by_id 1 cheap).1 = Raise (ValueError Price_must_be_positive) ∧
  (∃ e, (get_meal_by_name "Gruel" cheap).1 = Raise e) ∧
  ∃ f, PyFloat 7.5 = PyFloat f ∧ (0 <=? f)%float = true ∧ "LOW"%string ∈ levels.
Proof.
  assert (Hu : unique_names (meals cheap)).
  { intros i j ri rj. simpl.
    by intros [-> _]%lookup_singleton_Some [-> _]%lookup_singleton_Some. }
  assert (Hp : prices_are_numbers (meals cheap)).
  { intros i r f. simpl. by intros [_ <-]%lookup_singleton_Some [= <-]. }
  destruct (lookups_validate cheap Hu Hp) as (H1 & H2 & _).
  destruct (lookups_validate demo (proj1 (run_schema _)) (proj2 (run_schema _)))
    as (_ & _ & H3).
  split; [exact (proj1 (H1 1 _ eq_refl eq_refl))|].
  split; [exact (proj2 (H2 1 _ eq_refl (or_introl (ex_intro _ _ (conj eq_refl eq_refl)))))|].
  exact (H3 {| m_id := 3; m_meal := "Salad"; m_cuisine := "Vegetarian";
               m_price := PyFloat 7.5; m_difficulty := "LOW" |}
            (or_introl (ex_intro _ 3 eq_refl))).
Defined.

(** ** The leaderboard is sorted and complete *)

Global Instance desc_total o : Total (desc o).
Proof.
  intros a b. destruct o; simpl; [apply RealFacts.le_total|lia].
Qed.

Global Instance desc_transitive o : Transitive (desc o).
Proof.
  intros a b c. destruct o; simpl; [|lia].
  intros Hab Hbc. by eapply RealFacts.le_trans.
Qed.

(** On counters that fit SQLite's INTEGER the order by ratio is the
    comparison of doubles. *)
Lemma ratio_descending_leb a b :
  0 ≤ e_wins b < 2 ^ 63 → 0 < e_battles b < 2 ^ 63 →
  ratio_descending a b → (ratio b <=? ratio a)%float = true.
Proof.
  intros Hw Hb. unfold ratio_descending.
  rewrite RealFacts.le_leb; [done|]. by apply RealFacts.ratio_number.
Qed.

Lemma leaderboard_entry_projected i r :
  leaderboard_entry (leaderboard_tuple (i, r)) = projected i r.
Proof.
  unfold leaderboard_entry, leaderboard_tuple, projected, win_pct, sql_win_pct; simpl.
  by rewrite RealFacts.mul_one.
Qed.

Lemma StronglySorted_lookup {A} (R : relation A) (l : list A) i j x y :
  StronglySorted R l → (i < j)%nat → l !! i = Some x → l !! j = Some y → R x y.
Proof.
  intros Hs. revert i j. induction Hs as [|a l Hs IH Hall]; intros i j Hij Hi Hj.
  - by rewrite lookup_nil in Hi.
  - destruct j as [|j]; [lia|]. destruct i as [|i]; simpl in *.
    + injection Hi as <-. rewrite Forall_forall in Hall.
      apply Hall. by eapply list_elem_of_lookup_2.
    + apply (IH i j); [lia|done..].
Qed.

Lemma NoDup_fst_filter {A B} (P : A * B → Prop) `{∀ p, Decision (P p)}
    (l : list (A * B)) :
  NoDup l.*1 → NoDup (filter P l).*1.
Proof.
  induction l as [|p l IH]; simpl; [done|].
  intros [Hp Hl]%NoDup_cons. rewrite filter_cons.
  destruct (decide (P p)); [|by apply IH].
  simpl. apply NoDup_cons. split; [|by apply IH].
  intros (q & Hq & Hin)%list_elem_of_fmap. apply list_elem_of_filter in Hin as [_ Hin].
  apply Hp, list_elem_of_fmap. by exists q.
Qed.

Lemma leaderboard_rows o (tbl : gmap Z row) :
  let rows := merge_sort (desc o) (leaderboard_tuple <$> filter competing (scan tbl)) in
  (∀ t, t ∈ rows ↔
        ∃ i r, tbl !! i = Some r ∧ r_deleted r = false ∧ 0 < r_battles r ∧
               t = leaderboard_tuple (i, r)) ∧
  NoDup (t_id <$> rows) ∧
  StronglySorted (desc o) rows.
Proof.
  intros rows.
  assert (Hperm : rows ≡ₚ leaderboard_tuple <$> filter competing (scan tbl))
    by apply merge_sort_Permutation.
  split; [|split].
  - intros t. rewrite Hperm, list_elem_of_fmap. split.
    + intros ([i r] & -> & [[Hd Hb] Hin%elem_of_scan]%list_elem_of_filter).
      by exists i, r.
    + intros (i & r & Hr & Hd & Hb & ->). exists (i, r). split; [done|].
      apply list_elem_of_filter. split; [done|]. by apply elem_of_scan.
  - rewrite Hperm, <- list_fmap_compose.
    change (t_id ∘ leaderboard_tuple) with (@fst Z row).
    apply NoDup_fst_filter. rewrite scan_Permutation.
    apply NoDup_fst_map_to_list.
  - apply StronglySorted_merge_sort; apply _.
Qed.

Lemma get_leaderboard_eq sort_by d :
  get_leaderboard sort_by d =
  if decide (sort_by = "win_pct"%string)
  then (Ok (leaderboard_entry <$>
              merge_sort (desc ORDER_BY_win_pct_DESC)
                (leaderboard_tuple <$> filter competing (scan (meals d)))),
        traced d [Connect; Execute (SELECT_leaderboard ORDER_BY_win_pct_DESC)])
  else if decide (sort_by = "wins"%string)
  then (Ok (leaderboard_entry <$>
              merge_sort (desc ORDER_BY_wins_DESC)
                (leaderboard_tuple <$> filter competing (scan (meals d)))),
        traced d [Connect; Execute (SELECT_leaderboard ORDER_BY_wins_DESC)])
  else (Raise (ValueError (Invalid_sort_by sort_by)), d).
Proof.
  unfold get_leaderboard, bind at 1.
  destruct (decide (sort_by = "win_pct"%string));
    [|destruct (decide (sort_by = "wins"%string)); [|done]];
    unfold ret, bind, get_db_connection, execute_select_leaderboard, bind, emit,
      query, traced; simpl; by rewrite <- app_assoc.
Qed.

Lemma leaderboard_board o (tbl : gmap Z row) (before : entry → entry → Prop) :
  (∀ p q, desc o (leaderboard_tuple p) (leaderboard_tuple q) →
          before (leaderboard_entry (leaderboard_tuple p))
                 (leaderboard_entry (leaderboard_tuple q))) →
  leaderboard_of tbl before
    (leaderboard_entry <$>
       merge_sort (desc o) (leaderboard_tuple <$> filter competing (scan tbl))).
Proof.
  intros Hbefore.
  destruct (leaderboard_rows o tbl) as (Hmem & Hnodup & Hsorted).
  set (rows := merge_sort _ _) in *.
  split; [|split].
  - intros e. rewrite list_elem_of_fmap. split.
    + intros (t & -> & (i & r & Hr & Hd & Hb & ->)%Hmem).
      exists i, r. by rewrite leaderboard_entry_projected.
    + intros (i & r & Hr & Hd & Hb & ->).
      exists (leaderboard_tuple (i, r)). rewrite leaderboard_entry_projected.
      split; [done|]. apply Hmem. by exists i, r.
  - by rewrite <- list_fmap_compose.
  - intros i j ei ej Hij.
    rewrite !list_lookup_fmap.
    destruct (rows !! i) as [ti|] eqn:Hi; [|done].
    destruct (rows !! j) as [tj|] eqn:Hj; [|done].
    intros [= <-] [= <-].
    pose proof (StronglySorted_lookup _ _ _ _ _ _ Hsorted Hij Hi Hj) as Hdesc.
    apply list_elem_of_lookup_2, Hmem in Hi as (pi & ri & _ & _ & _ & ->).
    apply list_elem_of_lookup_2, Hmem in Hj as (pj & rj & _ & _ & _ & ->).
    by apply Hbefore.
Qed.

#[warnings="-inexact-float"]
Example win_pct_examples :
  win_pct 2 3 = 66.7%float ∧ win_pct 4 5 = 80%float.
Proof. split; reflexivity. Qed.

(** C1.  For every database, [get_leaderboard] with 'wins' and with
    'win_pct' returns a list that holds, once each, the rows that are not
    deleted and have [battles > 0], each as the dictionary of its [id],
    [meal], [cuisine], [price], [difficulty], [battles], [wins] and a
    [win_pct] that is [wins / battles * 100] rounded to one decimal place
    (66.7 for 2 wins in 3 battles, 80.0 for 4 in 5).  Under 'wins' no entry
    has fewer wins than one that follows it, under 'win_pct' none has a
    smaller ratio of wins to battles than one that follows it.  The table
    is left as it was. *)
#[warnings="-inexact-float"]
Theorem get_leaderboard_spec d :
  (∃ board, (get_leaderboard "wins" d).1 = Ok board ∧
            leaderboard_of (meals d) wins_descending board) ∧
  (∃ board, (get_leaderboard "win_pct" d).1 = Ok board ∧
            leaderboard_of (meals d) ratio_descending board) ∧
  win_pct 2 3 = 66.7%float ∧ win_pct 4 5 = 80%float ∧
  meals (get_leaderboard "wins" d).2 = meals d ∧
  meals (get_leaderboard "win_pct" d).2 = meals d.
Proof.
  rewrite !get_leaderboard_eq. simpl.
  split; [|split; [|by repeat split]].
  - eexists. split; [done|]. by apply leaderboard_board.
  - eexists. split; [done|]. apply leaderboard_board.
    intros [i r] [j r']. unfold ratio_descending, ratio; simpl.
    unfold sql_win_pct. by rewrite !RealFacts.mul_one.
Qed.

(** ** The outcomes of [get_random] *)

Section get_random_facts.

(** Python's [float] on a string: the double it reads, or [None] where it
    raises ValueError. *)
Variable float_of_str : string → option float.

Lemma raise_for_status_ok status_code :
  status_ok status_code → raise_for_status status_code = Ok tt.
Proof.
  unfold status_ok, raise_for_status. intros H.
  destruct (400 <=? status_code) eqn:H1; [|done].
  destruct (status_code <? 600) eqn:H2; [|done]. lia.
Qed.

Lemma raise_for_status_bad status_code :
  400 ≤ status_code < 600 →
  raise_for_status status_code = Raise (RequestException (Bad_status status_code)).
Proof.
  unfold raise_for_status. intros [H1 H2].
  by rewrite (proj2 (Z.leb_le _ _) H1), (proj2 (Z.ltb_lt _ _) H2).
Qed.

Lemma get_random_eq r :
  get_random float_of_str r =
  match r with
  | Timed_out => Raise (RuntimeError Request_timed_out)
  | Failed text => Raise (RuntimeError (Request_failed (Get_raised text)))
  | Response status_code text =>
      if decide (400 ≤ status_code < 600)
      then Raise (RuntimeError (Request_failed (Bad_status status_code)))
      else match float_of_str (strip text) with
           | Some x => Ok x
           | None => Raise (ValueError (Invalid_response (strip text)))
           end
  end.
Proof.
  destruct r as [|text|status_code text]; try done.
  unfold get_random; simpl.
  destruct (decide (400 ≤ status_code < 600)) as [H|H].
  - by rewrite raise_for_status_bad.
  - rewrite raise_for_status_ok by done. simpl.
    by destruct (float_of_str (strip text)).
Qed.

End get_random_facts.

(** ** When [create_meal] returns, and what a lookup then finds *)

Lemma checked_price_Some price :
  is_Some (checked_price price) ↔
  isinstance_int_float price = true ∧ ¬ price_le_zero price.
Proof.
  unfold checked_price. destruct price as [f|z| |]; simpl.
  - destruct (f <=? 0)%float.
    + split; [by intros [? [=]]|by intros [_ []]].
    + split; [done|by eauto].
  - destruct (Z.leb_spec z 0).
    + split; [by intros [? [=]]|]. intros [_ []]. done.
    + split; [|by eauto]. intros _. split; [done|lia].
  - split; [by intros [? [=]]|by intros [[=] _]].
  - split; [by intros [? [=]]|by intros [[=] _]].
Qed.

(** X1.  [create_meal] returns exactly when the price is a float, or an int
    below 2^63, that is not at most zero, the difficulty is LOW, MED or
    HIGH, and no row, deleted or not, bears the name.  With an int price
    from 2^63 on and a valid difficulty, whatever the name, it raises the
    OverflowError of the INSERT after the connection alone, and the table is
    as it was. *)
Theorem create_meal_returns meal cuisine price difficulty d :
  ((create_meal meal cuisine price difficulty d).1 = Ok tt ↔
   isinstance_int_float price = true ∧ ¬ price_le_zero price ∧
   price_fits price ∧ difficulty ∈ levels ∧ ¬ name_taken (meals d) meal) ∧
  (isinstance_int_float price = true ∧ ¬ price_le_zero price ∧
   ¬ price_fits price ∧ difficulty ∈ levels ↔
   create_meal meal cuisine price difficulty d =
     (Raise OverflowError, traced d [Connect])).
Proof.
  rewrite create_meal_eq.
  pose proof (checked_price_Some price) as Hp.
  destruct (checked_price price) as [x|].
  - destruct (proj1 Hp) as [Hi Hz]; [by eauto|].
    pose proof (binds_not_le_zero _ Hz) as Hb.
    destruct (decide (difficulty ∉ levels)) as [Hl|Hl].
    + split; split; [done| |by intros (_ & _ & _ & ?)|done].
      by intros (_ & _ & _ & ? & _).
    + apply dec_stable in Hl.
      destruct (binds price); cbn [negb].
      * pose proof (proj1 Hb eq_refl) as Hf.
        destruct (decide (map_Exists _ _)) as [Ht|Ht]; simpl.
        -- split; split; [done| |by intros (_ & _ & ? & _)|done].
           by intros (_ & _ & _ & _ & ?).
        -- split; split; [done|done|by intros (_ & _ & ? & _)|done].
      * assert (Hf : ¬ price_fits price) by (by intros [=]%Hb).
        split; split; [done| |done|done]. by intros (_ & _ & ? & _).
  - split; split; [done| | |done]; intros (H1 & H2 & _);
      destruct (proj2 Hp (conj H1 H2)) as [? [=]].
Qed.

Lemma create_meal_returns_witness :
  create_meal "Salad" "Greek" (PyInt (2 ^ 63)) "HIGH" demo =
    (Raise OverflowError, traced demo [Connect]).
Proof.
  assert (Hl : "HIGH"%string ∈ levels) by set_solver.
  apply (proj2 (create_meal_returns "Salad" "Greek" (PyInt (2 ^ 63)) "HIGH" demo)).
  split; [reflexivity|]. split; [simpl; lia|]. split; [simpl; lia|exact Hl].
Defined.

Lemma positive_float_number f :
  (0 <? f)%float = true → is_nan f = false ∧ (f <? 0)%float = false.
Proof.
  rewrite RealFacts.is_nan_spec, !FloatAxioms.ltb_spec.
  change (Prim2SF 0) with (S754_zero false).
  by destruct (Prim2SF f) as [[]|[]| |[] ? ?].
Qed.

Lemma positive_int_number z :
  0 < z < 2 ^ 63 →
  is_nan (Real.of_int z) = false ∧ (Real.of_int z <? 0)%float = false.
Proof.
  intros Hz.
  rewrite RealFacts.is_nan_spec, FloatAxioms.ltb_spec, RealFacts.of_int_spec by lia.
  change (Prim2SF 0) with (S754_zero false).
  destruct z as [|p|p]; [lia| |lia].
  by destruct (RealFacts.binary_normalize_finite p) as (m & e & ->); [lia|].
Qed.

(** A price above zero that the column keeps is stored as a number that is
    not below zero. *)
Lemma checked_price_stored price :
  price_positive price → price_fits price →
  ∃ x, checked_price price = Some x ∧ store_real x = Some x ∧
       (x <? 0)%float = false ∧
       match price with
       | PyFloat f => x = f
       | PyInt z => x = Real.of_int z
       | _ => False
       end.
Proof.
  intros Hp Hf. destruct (checked_price_valid _ Hp) as [x Hx].
  exists x. split; [done|]. unfold checked_price in Hx.
  destruct price as [f|z| |]; simpl in *; try done.
  - destruct (f <=? 0)%float; [done|]. injection Hx as <-.
    destruct (positive_float_number f Hp) as [Hn Hl].
    unfold store_real. by rewrite Hn.
  - destruct (z <=? 0); [done|]. injection Hx as <-.
    destruct (positive_int_number z) as [Hn Hl]; [lia|].
    unfold store_real. by rewrite Hn.
Qed.

Lemma select_by_name_only (tbl : gmap Z row) i r :
  tbl !! i = Some r →
  (∀ j r', tbl !! j = Some r' → r_meal r' = r_meal r → j = i) →
  head (filter (λ p, r_meal p.2 = r_meal r) (scan tbl)) = Some (i, r).
Proof.
  intros Hr Honly.
  destruct (head _) as [[j r']|] eqn:Hhead.
  - apply select_by_name_Some in Hhead as [Hj Hn].
    assert (j = i) as -> by (by eapply Honly). congruence.
  - apply head_None in Hhead.
    assert (Hin : (i, r) ∈ filter (λ p : Z * row, r_meal p.2 = r_meal r) (scan tbl))
      by (apply list_elem_of_filter; split; [done|by apply elem_of_scan]).
    rewrite Hhead in Hin. by apply not_elem_of_nil in Hin.
Qed.

(** X2.  After [create_meal] with a price above zero, a difficulty among LOW,
    MED and HIGH and a name that no row bears, the lookup by that name and
    the lookup by the new id, which is above every id of the table, both
    return the Meal with the id, the name, the cuisine and the difficulty
    passed and the price as a float. *)
Theorem create_then_lookup meal cuisine price difficulty d :
  price_positive price → price_fits price → difficulty ∈ levels →
  ¬ name_taken (meals d) meal →
  let d' := (create_meal meal cuisine price difficulty d).2 in
  ∃ i m,
    (create_meal meal cuisine price difficulty d).1 = Ok tt ∧
    (∀ j, is_Some (meals d !! j) → j < i) ∧
    (get_meal_by_name meal d').1 = Ok m ∧
    (get_meal_by_id i d').1 = Ok m ∧
    m_id m = i ∧ m_meal m = meal ∧ m_cuisine m = cuisine ∧
    m_difficulty m = difficulty ∧
    match price with
    | PyFloat f => m_price m = PyFloat f
    | PyInt z => m_price m = PyFloat (Real.of_int z)
    | _ => False
    end.
Proof.
  intros Hp Hf Hl Hfree. simpl.
  destruct (checked_price_stored price Hp Hf) as (x & Hx & Hs & Hneg & Hprice).
  rewrite create_meal_eq, Hx, (proj2 (binds_price_fits _ Hp) Hf).
  destruct (decide (difficulty ∉ levels)); [done|]. cbn [negb].
  destruct (decide (map_Exists _ _)); [done|]. simpl.
  set (i := next_rowid (meals d)).
  set (r := new_row meal cuisine x difficulty).
  set (tbl := <[i:=r]> (meals d)).
  assert (Hr : tbl !! i = Some r) by apply lookup_insert_eq.
  assert (Honly : ∀ j r', tbl !! j = Some r' → r_meal r' = r_meal r → j = i).
  { intros j r'. unfold tbl. rewrite lookup_insert. case_decide; [done|].
    intros Hj Hn. destruct Hfree. by exists j, r'. }
  assert (Hm : Meal_init i meal cuisine (PyFloat x) difficulty =
               Ok {| m_id := i; m_meal := meal; m_cuisine := cuisine;
                     m_price := PyFloat x; m_difficulty := difficulty |}).
  { unfold Meal_init, Meal_post_init. simpl. rewrite Hneg.
    by destruct (decide (difficulty ∉ levels)). }
  pose proof (select_by_name_only tbl i r Hr Honly) as Hsel.
  change (r_meal r) with meal in Hsel.
  eexists i, _. split; [done|]. split.
  { intros j [r' Hj]. by eapply next_rowid_above. }
  rewrite get_meal_by_name_eq, get_meal_by_id_eq. simpl. fold tbl.
  rewrite Hsel, Hr. simpl. rewrite Hs. simpl.
  rewrite Hm. repeat (split; [done|]). simpl.
  by destruct price; try subst x.
Qed.

Lemma create_then_lookup_witness :
  ∃ i m,
    (get_meal_by_name "Ramen"
       (create_meal "Ramen" "Japanese" (PyInt 12) "MED" demo).2).1 = Ok m ∧
    m_id m = i ∧ m_price m = PyFloat (Real.of_int 12).
Proof.
  assert (Hl : "MED"%string ∈ levels) by set_solver.
  assert (Hfree : ¬ name_taken (meals demo) "Ramen").
  { apply (bool_decide_eq_false_1
             (map_Exists (λ _ r, r_meal r = "Ramen"%string) (meals demo))).
    vm_compute. reflexivity. }
  destruct (create_then_lookup "Ramen" "Japanese" (PyInt 12) "MED" demo
              ltac:(reflexivity) ltac:(reflexivity) Hl Hfree)
    as (i & m & _ & _ & Hname & _ & Hid & _ & _ & _ & Hprice).
  exists i, m. exact (conj Hname (conj Hid Hprice)).
Defined.

(** ** Ids and names that no row has *)

Lemma select_by_name_None (tbl : gmap Z row) name :
  ¬ name_taken tbl name →
  head (filter (λ p, r_meal p.2 = name) (scan tbl)) = None.
Proof.
  intros Hfree. destruct (head _) as [[i r]|] eqn:Hhead; [|done].
  apply select_by_name_Some in Hhead as [Hr Hn]. destruct Hfree. by exists i, r.
Qed.

(** X3.  On an id that no row has and that SQLite can hold (a 64-bit
    integer), [delete_meal], [get_meal_by_id] and [update_meal_stats],
    whatever the result passed, raise "not found" after their one SELECT,
    and so does [get_meal_by_name] on a name that no row bears; the kind is
    NotFound.  On an id outside 64 bits the three raise the OverflowError
    of the binding instead, which is none of the kinds, after the
    connection alone.  In every case the table is left as it was and
    nothing is committed. *)
Theorem missing_key_not_found d meal_id meal_name :
  meals d !! meal_id = None → ¬ name_taken (meals d) meal_name →
  let by_id := ValueError (Id_not_found meal_id) in
  let by_name := ValueError (Name_not_found meal_name) in
  kind_of by_id = Some NotFound ∧ kind_of by_name = Some NotFound ∧
  kind_of OverflowError = None ∧
  get_meal_by_name meal_name d =
    (Raise by_name, traced d [Connect; Execute (SELECT_meal_WHERE_meal meal_name)]) ∧
  delete_meal meal_id d =
    (if fits_int64 meal_id
     then (Raise by_id, traced d [Connect; Execute (SELECT_deleted meal_id)])
     else (Raise OverflowError, traced d [Connect])) ∧
  get_meal_by_id meal_id d =
    (if fits_int64 meal_id
     then (Raise by_id, traced d [Connect; Execute (SELECT_meal_WHERE_id meal_id)])
     else (Raise OverflowError, traced d [Connect])) ∧
  ∀ result,
    update_meal_stats meal_id result d =
      (if fits_int64 meal_id
       then (Raise by_id, traced d [Connect; Execute (SELECT_deleted meal_id)])
       else (Raise OverflowError, traced d [Connect])).
Proof.
  intros Hid Hname. simpl.
  rewrite delete_meal_eq, get_meal_by_id_eq, get_meal_by_name_eq, Hid,
    (select_by_name_None _ _ Hname).
  repeat (split; [done|]). intros result. by rewrite update_meal_stats_eq, Hid.
Qed.

Lemma missing_key_not_found_witness :
  delete_meal 7 empty_db =
    (Raise (ValueError (Id_not_found 7)),
     traced empty_db [Connect; Execute (SELECT_deleted 7)]) ∧
  get_meal_by_name "Stew" empty_db =
    (Raise (ValueError (Name_not_found "Stew")),
     traced empty_db [Connect; Execute (SELECT_meal_WHERE_meal "Stew")]) ∧
  get_meal_by_id (-9223372036854775809) empty_db =
    (Raise OverflowError, traced empty_db [Connect]).
Proof.
  assert (Hname : ¬ name_taken (meals empty_db) "Stew").
  { intros (i & r & Hr & _). simpl in Hr. by rewrite lookup_empty in Hr. }
  pose proof (missing_key_not_found empty_db 7 "Stew" (lookup_empty 7) Hname) as H.
  pose proof (missing_key_not_found empty_db (-9223372036854775809) "Stew"
                (lookup_empty _) Hname) as H'.
  exact (conj (proj1 (proj2 (proj2 (proj2 (proj2 H)))))
           (conj (proj1 (proj2 (proj2 (proj2 H))))
              (proj1 (proj2 (proj2 (proj2 (proj2 (proj2 H')))))))).
Defined.

(** ** When [delete_meal] and [update_meal_stats] return *)

(** X4.  [delete_meal] returns exactly when the id has a row that is not
    deleted; [update_meal_stats] returns exactly when, besides, the result
    is 'win' or 'loss'.  Either then ends on a commit. *)
Theorem delete_and_update_return d meal_id result :
  let live := ∃ r, meals d !! meal_id = Some r ∧ r_deleted r = false in
  ((delete_meal meal_id d).1 = Ok tt ↔ live) ∧
  ((update_meal_stats meal_id result d).1 = Ok tt ↔
     live ∧ (result = "win"%string ∨ result = "loss"%string)) ∧
  ((delete_meal meal_id d).1 = Ok tt →
     last (trace (delete_meal meal_id d).2) = Some Commit) ∧
  ((update_meal_stats meal_id result d).1 = Ok tt →
     last (trace (update_meal_stats meal_id result d).2) = Some Commit).
Proof.
  simpl. rewrite delete_meal_eq, update_meal_stats_eq.
  destruct (meals d !! meal_id) as [r|] eqn:Hr.
  - destruct (r_deleted r) eqn:Hd.
    + repeat split; try done.
      * by intros (r' & [= <-] & ?); congruence.
      * by intros [(r' & [= <-] & ?) _]; congruence.
    + destruct (decide (result = "win"%string)) as [Hw|Hw];
        [|destruct (decide (result = "loss"%string)) as [Hl|Hl]];
        simpl; repeat split; try done; eauto;
        try (intros _; by rewrite last_app);
        by intros [_ [?|?]].
  - destruct (fits_int64 meal_id); (split; [|split; [|done]]);
      (split; [done|]);
      first [by intros (r' & [=] & _) | by intros [(r' & [=] & _) _]].
Qed.

(** ** A call that raises changes nothing; a change is committed *)

Lemma events_traced d evs : drop (length (trace d)) (trace (traced d evs)) = evs.
Proof. simpl. by rewrite drop_app_length. Qed.

Lemma events_changed d tbl evs :
  drop (length (trace d)) (trace (changed d tbl evs)) = evs.
Proof. simpl. by rewrite drop_app_length. Qed.

Lemma events_none d : drop (length (trace d)) (trace d) = [].
Proof. by rewrite drop_all. Qed.

(** Splits a call on a database into the cases its function tells apart. *)
Ltac call_cases d c :=
  destruct c as [meal cuisine price difficulty|meal_id|sort_by|meal_id|meal_name
                |meal_id result];
  unfold events, raised, step;
  rewrite ?create_meal_eq, ?delete_meal_eq, ?get_leaderboard_eq,
    ?get_meal_by_id_eq, ?get_meal_by_name_eq, ?update_meal_stats_eq;
  repeat match goal with
    | |- context [checked_price ?p] => destruct (checked_price p)
    | |- context [binds ?p] => destruct (binds p); cbn [negb]
    | |- context [decide ?P] => destruct (decide P)
    | |- context [meals d !! ?i] => destruct (meals d !! i) as [?r|] eqn:?Hrow
    | |- context [fits_int64 ?i] => destruct (fits_int64 i)
    | |- context [r_deleted ?r] => destruct (r_deleted r) eqn:?Hdel
    | |- context [head ?l] => destruct (head l) as [[? ?r]|]
    | |- context [Meal_init ?a ?b ?c ?p ?l] => destruct (Meal_init a b c p l)
    end;
  cbn [fst snd error_of writes];
  rewrite ?events_traced, ?events_changed, ?events_none;
  cbn [meals traced changed].

(** Membership of an event in an explicit list of events. *)
Ltac event_in :=
  rewrite ?elem_of_cons, ?not_elem_of_cons, ?elem_of_nil;
  intuition (first [discriminate | done | congruence]).

(** X5.  A call that raises leaves every row as it was, and commits nothing. *)
Theorem failed_call_changes_nothing d c e :
  raised d c = Some e →
  meals (step d c) = meals d ∧ Commit ∉ events d c.
Proof.
  call_cases d c; intros Hraised; try done; split; try done; event_in.
Qed.

Lemma failed_call_changes_nothing_witness :
  meals (step demo (Update_meal_stats 1 "draw")) = meals demo ∧
  Commit ∉ events demo (Update_meal_stats 1 "draw").
Proof.
  exact (failed_call_changes_nothing demo (Update_meal_stats 1 "draw")
           (ValueError (Invalid_result "draw")) eq_refl).
Defined.

(** X6.  Every call only adds to the trace.  What it adds is nothing, or begins
    with the one connection it opens.  It commits exactly when it is a call
    of [create_meal], [delete_meal] or [update_meal_stats] that returns, the
    commit is then the last thing it does, and a call that changes the
    table commits. *)
Theorem connection_discipline d c :
  trace (step d c) = trace d ++ events d c ∧
  (events d c = [] ∨ ∃ evs, events d c = Connect :: evs ∧ Connect ∉ evs) ∧
  (Commit ∈ events d c ↔ writes c = true ∧ raised d c = None) ∧
  (Commit ∈ events d c → last (events d c) = Some Commit) ∧
  (meals (step d c) ≠ meals d → Commit ∈ events d c).
Proof.
  split.
  { unfold events.
    assert (H : ∃ evs, trace (step d c) = trace d ++ evs).
    { call_cases d c; try (by eexists); by exists []; rewrite app_nil_r. }
    destruct H as [evs ->]. by rewrite drop_app_length. }
  call_cases d c;
    (split; [first [by left | right; eexists; split; [done|event_in]]|]);
    (split; [event_in|]); (split; event_in).
Qed.

(** ** Rows are never removed *)

Lemma later_row_refl r : later_row r r.
Proof. unfold later_row. repeat split; try done; lia. Qed.

Lemma transition_later_row tbl tbl' i r r' :
  transition tbl tbl' → tbl !! i = Some r' → later_row r r' →
  ∃ r'', tbl' !! i = Some r'' ∧ later_row r r''.
Proof.
  intros [|meal cuisine x difficulty Hfree|id r0 f Hr0 Hd0 Hf] Hr' Hlater;
    [by eauto|..].
  - exists r'. split; [|done]. rewrite lookup_insert_ne; [done|].
    apply next_rowid_above in Hr'. lia.
  - destruct (decide (id = i)) as [->|Hne];
      [|exists r'; by rewrite lookup_insert_ne].
    assert (r0 = r') as -> by congruence.
    exists (f r'). split; [apply lookup_insert_eq|].
    destruct Hlater as (H1 & H2 & H3 & H4 & H5 & H6).
    assert (Hlive : r_deleted r = false).
    { destruct (r_deleted r) eqn:Hdr; [|done]. rewrite (H6 eq_refl) in Hd0. congruence. }
    unfold later_row. rewrite Hlive.
    set_unfold in Hf. destruct Hf as [->|[->|[->|[]]]]; simpl;
      repeat split; try done; lia.
Qed.

(** X7.  A row of the table is there after any calls, under the same id, with
    the same name, cuisine, price and difficulty; its counters have not
    gone down, its wins have grown by no more than its battles, and if it
    was deleted it has not changed at all. *)
Theorem rows_are_permanent d cs i r :
  meals d !! i = Some r →
  ∃ r', meals (run d cs) !! i = Some r' ∧ later_row r r'.
Proof.
  intros Hr.
  apply (run_invariant (λ tbl, ∃ r', tbl !! i = Some r' ∧ later_row r r')).
  - intros tbl tbl' Ht (r' & Hr' & Hlater). by eapply transition_later_row.
  - exists r. split; [done|apply later_row_refl].
Qed.

Lemma rows_are_permanent_witness :
  ∃ r', meals (run demo [Delete_meal 1; Update_meal_stats 2 "win";
                         Create_meal "Stew" "Irish" (PyInt 5) "LOW"]) !! 2 = Some r' ∧
        later_row {| r_meal := "Sushi"; r_cuisine := "Japanese";
                     r_price := Some 20%float; r_difficulty := "HIGH";
                     r_battles := 5; r_wins := 4; r_deleted := false |} r'.
Proof. exact (rows_are_permanent demo _ 2 _ eq_refl). Defined.

Lemma transition_name_taken tbl tbl' name :
  transition tbl tbl' → name_taken tbl name → name_taken tbl' name.
Proof.
  intros Ht (i & r & Hr & Hn).
  destruct (transition_later_row tbl tbl' i r r Ht Hr (later_row_refl r))
    as (r' & Hr' & Hlater).
  exists i, r'. split; [done|]. destruct Hlater as [-> _]. done.
Qed.

(** X8.  A name that a row bears is taken for good: after any calls,
    deletions among them, [create_meal] with that name, a price above zero
    that the INSERT can bind (a float, or an int below 2^63) and a valid
    difficulty raises "already exists". *)
Theorem name_stays_taken d cs i r cuisine price difficulty :
  meals d !! i = Some r → price_positive price → price_fits price →
  difficulty ∈ levels →
  (create_meal (r_meal r) cuisine price difficulty (run d cs)).1 =
    Raise (ValueError (Meal_already_exists (r_meal r))).
Proof.
  intros Hr Hp Hf Hl.
  assert (Htaken : name_taken (meals (run d cs)) (r_meal r)).
  { apply run_invariant; [intros ???; by apply transition_name_taken|].
    by exists i, r. }
  destruct (checked_price_valid _ Hp) as [x Hx].
  rewrite create_meal_eq, Hx, (proj2 (binds_price_fits _ Hp) Hf).
  destruct (decide (difficulty ∉ levels)); [done|]. cbn [negb].
  by destruct (decide (map_Exists _ _)).
Qed.

Lemma name_stays_taken_witness :
  (create_meal "Pizza" "Roman" (PyFloat 9) "LOW" (run demo [Delete_meal 1])).1 =
    Raise (ValueError (Meal_already_exists "Pizza")).
Proof.
  assert (Hl : "LOW"%string ∈ levels) by set_solver.
  exact (name_stays_taken demo [Delete_meal 1] 1 _ "Roman" (PyFloat 9) "LOW"
           eq_refl eq_refl I Hl).
Defined.

(** ** The leaderboard and the other calls *)

Lemma get_leaderboard_Ok sort_by d board :
  (get_leaderboard sort_by d).1 = Ok board →
  ∃ o, board = leaderboard_entry <$>
                 merge_sort (desc o)
                   (leaderboard_tuple <$> filter competing (scan (meals d))).
Proof.
  rewrite get_leaderboard_eq.
  destruct (decide (sort_by = "win_pct"%string)); [intros [= <-]; by eexists|].
  destruct (decide (sort_by = "wins"%string)); [intros [= <-]; by eexists|done].
Qed.

Lemma elem_of_leaderboard sort_by d board e :
  (get_leaderboard sort_by d).1 = Ok board →
  e ∈ board ↔
  ∃ i r, meals d !! i = Some r ∧ r_deleted r = false ∧ 0 < r_battles r ∧
         e = projected i r.
Proof.
  intros [o ->]%get_leaderboard_Ok.
  by destruct (leaderboard_board o (meals d) (λ _ _, True)) as [H _].
Qed.

(** X9.  Once [delete_meal] has been called on the id of a row, whether it
    returned or found the row deleted already, no leaderboard lists that id
    again, whatever calls follow. *)
Theorem deleted_meal_is_off_the_leaderboard d meal_id r cs sort_by board e :
  meals d !! meal_id = Some r →
  (get_leaderboard sort_by (run (delete_meal meal_id d).2 cs)).1 = Ok board →
  e ∈ board → e_id e ≠ meal_id.
Proof.
  intros Hr Hboard He.
  assert (Hgone : ∃ r', meals (run (delete_meal meal_id d).2 cs) !! meal_id = Some r' ∧
                        r_deleted r' = true).
  { apply (run_invariant (λ tbl, ∃ r', tbl !! meal_id = Some r' ∧ r_deleted r' = true)).
    - intros tbl tbl' Ht (r' & Hr' & Hd'). exists r'.
      split; [by eapply transition_deleted|done].
    - rewrite delete_meal_eq, Hr. destruct (r_deleted r) eqn:Hd; simpl.
      + by exists r.
      + exists (set_deleted r). split; [apply lookup_insert_eq|done]. }
  destruct Hgone as (r' & Hr' & Hd').
  apply (elem_of_leaderboard _ _ _ _ Hboard) in He as (i & r0 & Hi & Hd0 & _ & ->).
  simpl. intros ->. congruence.
Qed.

Lemma deleted_meal_is_off_the_leaderboard_witness :
  (get_leaderboard "wins" (run (delete_meal 2 demo).2 [Update_meal_stats 2 "win"])).1 =
    Ok [projected 1 {| r_meal := "Pizza"; r_cuisine := "Italian";
                       r_price := Some 15%float; r_difficulty := "MED";
                       r_battles := 3; r_wins := 2; r_deleted := false |}] ∧
  e_id (projected 1 {| r_meal := "Pizza"; r_cuisine := "Italian";
                       r_price := Some 15%float; r_difficulty := "MED";
                       r_battles := 3; r_wins := 2; r_deleted := false |}) ≠ 2.
Proof.
  split; [reflexivity|].
  exact (deleted_meal_is_off_the_leaderboard demo 2 _ [Update_meal_stats 2 "win"]
           "wins" _ _ eq_refl eq_refl (list_elem_of_here _ _)).
Defined.

(** X10.  The two orders list the same entries: the leaderboard by wins and the
    leaderboard by win percentage are permutations of one another. *)
Theorem leaderboards_are_permutations d :
  ∃ by_wins by_pct,
    (get_leaderboard "wins" d).1 = Ok by_wins ∧
    (get_leaderboard "win_pct" d).1 = Ok by_pct ∧
    by_wins ≡ₚ by_pct.
Proof.
  rewrite !get_leaderboard_eq. simpl. eexists _, _.
  split; [done|]. split; [done|].
  by rewrite !merge_sort_Permutation.
Qed.

(** The row a battle leaves behind. *)
Lemma update_meal_stats_row d i r result :
  meals d !! i = Some r → r_deleted r = false →
  result = "win"%string ∨ result = "loss"%string →
  meals (update_meal_stats i result d).2 !! i =
    Some (if decide (result = "win"%string) then add_win r else add_loss r).
Proof.
  intros Hr Hd Hres. rewrite update_meal_stats_eq, Hr, Hd.
  destruct (decide (result = "win"%string)); [apply lookup_insert_eq|].
  destruct (decide (result = "loss"%string)); [apply lookup_insert_eq|].
  by destruct Hres.
Qed.

(** X11.  A meal is on the leaderboard as soon as it has fought: after
    [update_meal_stats] with 'win' or 'loss' on a row that is not deleted,
    both leaderboards list the id with one battle more, and with one win
    more if the result was 'win'. *)
Theorem fought_meal_is_listed d meal_id r result sort_by :
  meals d !! meal_id = Some r → r_deleted r = false → 0 ≤ r_battles r →
  result = "win"%string ∨ result = "loss"%string →
  sort_by = "wins"%string ∨ sort_by = "win_pct"%string →
  ∃ board e,
    (get_leaderboard sort_by (update_meal_stats meal_id result d).2).1 = Ok board ∧
    e ∈ board ∧ e_id e = meal_id ∧ e_meal e = r_meal r ∧
    e_battles e = r_battles r + 1 ∧
    e_wins e = r_wins r + (if decide (result = "win"%string) then 1 else 0).
Proof.
  intros Hr Hd Hb Hres Hsort.
  pose proof (update_meal_stats_row d meal_id r result Hr Hd Hres) as Hrow.
  set (d' := (update_meal_stats meal_id result d).2) in *.
  assert (Hboard : ∃ board, (get_leaderboard sort_by d').1 = Ok board).
  { rewrite get_leaderboard_eq.
    destruct (decide (sort_by = "win_pct"%string)); [by eexists|].
    destruct (decide (sort_by = "wins"%string)); [by eexists|by destruct Hsort]. }
  destruct Hboard as [board Hboard].
  exists board, (projected meal_id
                   (if decide (result = "win"%string) then add_win r else add_loss r)).
  split; [done|]. split.
  - apply (elem_of_leaderboard _ _ _ _ Hboard). eexists _, _.
    split; [done|]. destruct (decide (result = "win"%string)); simpl; repeat split; try done; lia.
  - destruct (decide (result = "win"%string)); simpl; repeat split; lia.
Qed.

Lemma fought_meal_is_listed_witness :
  ∃ board e,
    (get_leaderboard "wins" (update_meal_stats 3 "loss" demo).2).1 = Ok board ∧
    e ∈ board ∧ e_id e = 3 ∧ e_meal e = "Salad"%string ∧
    e_battles e = 0 + 1 ∧ e_wins e = 0 + 0.
Proof.
  exact (fought_meal_is_listed demo 3 _ "loss" "wins" eq_refl eq_refl
           ltac:(reflexivity) (or_intror eq_refl) (or_introl eq_refl)).
Defined.

(** X12.  [create_meal] does not change who is on the leaderboard, whether it
    returns or raises: the board after it is a permutation of the board
    before it (a new meal has not fought). *)
Theorem create_meal_keeps_the_leaderboard meal cuisine price difficulty d sort_by :
  sort_by = "wins"%string ∨ sort_by = "win_pct"%string →
  ∃ before after,
    (get_leaderboard sort_by d).1 = Ok before ∧
    (get_leaderboard sort_by (create_meal meal cuisine price difficulty d).2).1 =
      Ok after ∧
    after ≡ₚ before.
Proof.
  intros Hsort.
  assert (Hrows : filter competing (scan (meals (create_meal meal cuisine price difficulty d).2))
                  ≡ₚ filter competing (scan (meals d))).
  { rewrite create_meal_eq.
    destruct (checked_price price) as [x|]; [|done].
    destruct (decide (difficulty ∉ levels)); [done|].
    destruct (binds price); cbn [negb]; [|done].
    destruct (decide (map_Exists _ _)); [done|]. simpl.
    rewrite !scan_Permutation, map_to_list_insert by apply next_rowid_fresh.
    rewrite filter_cons. destruct (decide (competing _)) as [[_ Hb]|]; [|done].
    simpl in Hb. lia. }
  rewrite !get_leaderboard_eq.
  destruct (decide (sort_by = "win_pct"%string));
    [|destruct (decide (sort_by = "wins"%string)); [|by destruct Hsort]];
    simpl; eexists _, _; (split; [done|]); (split; [done|]);
    by rewrite !merge_sort_Permutation, Hrows.
Qed.

Lemma create_meal_keeps_the_leaderboard_witness :
  ∃ before after,
    (get_leaderboard "wins" demo).1 = Ok before ∧
    (get_leaderboard "wins" (create_meal "Stew" "Irish" (PyInt 5) "LOW" demo).2).1 =
      Ok after ∧
    after ≡ₚ before.
Proof.
  exact (create_meal_keeps_the_leaderboard "Stew" "Irish" (PyInt 5) "LOW" demo "wins"
           (or_introl eq_refl)).
Defined.

(** ** What changes the answer of a lookup *)

(** X13.  The answer of [get_meal_by_id] for an id that has a row is changed by no
    call but [delete_meal] on that id: not by a creation, not by a battle of
    that meal or another, not by the deletion of another meal. *)
Theorem lookup_changes_only_by_delete d c meal_id r :
  meals d !! meal_id = Some r → c ≠ Delete_meal meal_id →
  (get_meal_by_id meal_id (step d c)).1 = (get_meal_by_id meal_id d).1.
Proof.
  intros Hr Hc. rewrite !get_meal_by_id_eq.
  assert (H : ∃ r', meals (step d c) !! meal_id = Some r' ∧
                    r_meal r' = r_meal r ∧ r_cuisine r' = r_cuisine r ∧
                    r_price r' = r_price r ∧ r_difficulty r' = r_difficulty r ∧
                    r_deleted r' = r_deleted r).
  { destruct c as [meal cuisine price difficulty|i|sort_by|i|meal_name|i result];
      cbn [step].
    - rewrite create_meal_eq.
      destruct (checked_price price) as [x|]; [|by eauto 10].
      destruct (decide (difficulty ∉ levels)); [by eauto 10|].
      destruct (binds price); cbn [negb]; [|by eauto 10].
      destruct (decide (map_Exists _ _)); [by eauto 10|]. simpl.
      exists r. split; [|done]. rewrite lookup_insert_ne; [done|].
      apply next_rowid_above in Hr. lia.
    - assert (i ≠ meal_id) by congruence. rewrite delete_meal_eq.
      destruct (meals d !! i) as [ri|];
        [|destruct (fits_int64 i); by eauto 10].
      destruct (r_deleted ri); [by eauto 10|]. simpl.
      exists r. by rewrite lookup_insert_ne.
    - rewrite get_leaderboard_meals. by eauto 10.
    - rewrite get_meal_by_id_eq.
      destruct (meals d !! i); [|destruct (fits_int64 i)]; by eauto 10.
    - rewrite get_meal_by_name_eq. by eauto 10.
    - rewrite update_meal_stats_eq.
      destruct (meals d !! i) as [ri|] eqn:Hi;
        [|destruct (fits_int64 i); by eauto 10].
      destruct (r_deleted ri); [by eauto 10|].
      destruct (decide (i = meal_id)) as [->|Hne].
      + assert (ri = r) as -> by congruence.
        destruct (decide (result = "win"%string));
          [simpl; rewrite lookup_insert_eq; by eauto 10|].
        destruct (decide (result = "loss"%string));
          [simpl; rewrite lookup_insert_eq; by eauto 10|by eauto 10].
      + destruct (decide (result = "win"%string));
          [simpl; rewrite lookup_insert_ne by done; by eauto 10|].
        destruct (decide (result = "loss"%string));
          [simpl; rewrite lookup_insert_ne by done; by eauto 10|by eauto 10]. }
  destruct H as (r' & -> & -> & -> & -> & -> & ->). by rewrite Hr.
Qed.

Lemma lookup_changes_only_by_delete_witness :
  (get_meal_by_id 1 (step demo (Update_meal_stats 1 "win"))).1 =
  (get_meal_by_id 1 demo).1.
Proof.
  exact (lookup_changes_only_by_delete demo (Update_meal_stats 1 "win") 1 _
           eq_refl ltac:(discriminate)).
Defined.

(** ** What the construction of a Meal accepts *)

(** X14.  The constructor returns exactly when the price is an int or a float
    that is not below zero and the difficulty is LOW, MED or HIGH, and it
    then returns the record of its arguments.  It raises TypeError exactly
    when the price is not a number, "Price must be a positive value" exactly
    when the price is below zero, whatever the difficulty, and the error of
    the difficulty exactly when the price passes and the difficulty does
    not. *)
Theorem Meal_init_outcomes id meal cuisine price difficulty :
  let self := {| m_id := id; m_meal := meal; m_cuisine := cuisine;
                 m_price := price; m_difficulty := difficulty |} in
  (∀ m, Meal_init id meal cuisine price difficulty = Ok m ↔
        price_not_negative price ∧ difficulty ∈ levels ∧ m = self) ∧
  (Meal_init id meal cuisine price difficulty = Raise TypeError ↔
     isinstance_int_float price = false) ∧
  (Meal_init id meal cuisine price difficulty =
     Raise (ValueError Price_must_be_positive) ↔ price_below_zero price) ∧
  (Meal_init id meal cuisine price difficulty =
     Raise (ValueError Difficulty_must_be) ↔
     price_not_negative price ∧ difficulty ∉ levels).
Proof.
  unfold Meal_init, Meal_post_init. cbn [m_price m_difficulty].
  destruct price as [f|z| |]; cbn [lt_zero price_not_negative price_below_zero
                                     isinstance_int_float].
  - destruct (f <? 0)%float;
      [|destruct (decide (difficulty ∉ levels)) as [Hl|Hl%dec_stable]];
      split_and!; try (intros m); split; try done;
      try (by intros [? ?]); try (by intros [= <-]); try (by intros (? & ? & ->)).
  - destruct (Z.ltb_spec z 0);
      [|destruct (decide (difficulty ∉ levels)) as [Hl|Hl%dec_stable]];
      split_and!; try (intros m); split; try done; try lia;
      try (by intros [? ?]); try (by intros [= <-]); try (by intros (? & ? & ->));
      try (intros [? ?]; lia).
  - split_and!; try (intros m); split; try done; by intros [? ?].
  - split_and!; try (intros m); split; try done; by intros [? ?].
Qed.

(** ** A sort key that is not known *)

(** X15.  With a key other than 'wins' and 'win_pct', [get_leaderboard] raises
    "Invalid sort_by parameter", of the kind InvalidArgument, and returns
    the database as it received it: no connection is opened. *)
Theorem get_leaderboard_invalid_sort_by sort_by d :
  sort_by ≠ "wins"%string → sort_by ≠ "win_pct"%string →
  get_leaderboard sort_by d = (Raise (ValueError (Invalid_sort_by sort_by)), d) ∧
  kind_of (ValueError (Invalid_sort_by sort_by)) = Some InvalidArgument.
Proof.
  intros Hw Hp. rewrite get_leaderboard_eq.
  destruct (decide (sort_by = "win_pct"%string)); [done|].
  by destruct (decide (sort_by = "wins"%string)).
Qed.

Lemma get_leaderboard_invalid_sort_by_witness :
  get_leaderboard "losses" demo =
    (Raise (ValueError (Invalid_sort_by "losses")), demo).
Proof.
  exact (proj1 (get_leaderboard_invalid_sort_by "losses" demo
                  ltac:(discriminate) ltac:(discriminate))).
Defined.

(** ** Battles are counted *)

(** X16.  After a series of battles of a meal that is not deleted, each reported
    as 'win' or 'loss', the row has as many battles more as there were
    reports and as many wins more as there were reports of 'win'; its other
    columns are as before. *)
Theorem battles_are_counted results d meal_id r :
  meals d !! meal_id = Some r → r_deleted r = false →
  Forall (λ x, x = "win"%string ∨ x = "loss"%string) results →
  meals (run d (Update_meal_stats meal_id <$> results)) !! meal_id =
    Some {| r_meal := r_meal r; r_cuisine := r_cuisine r; r_price := r_price r;
            r_difficulty := r_difficulty r;
            r_battles := r_battles r + Z.of_nat (length results);
            r_wins := r_wins r +
                      Z.of_nat (length (filter (λ x, x = "win"%string) results));
            r_deleted := false |}.
Proof.
  revert d r. induction results as [|x results IH]; intros d r Hr Hd Hall.
  - simpl. rewrite Hr, !Z.add_0_r, <- Hd. by destruct r.
  - apply Forall_cons in Hall as [Hx Hall]. cbn [fmap list_fmap run foldl step].
    pose proof (update_meal_stats_row d meal_id r x Hr Hd Hx) as Hrow.
    fold (run (update_meal_stats meal_id x d).2 (Update_meal_stats meal_id <$> results)).
    rewrite filter_cons.
    destruct (decide (x = "win"%string)) as [->|Hne].
    + rewrite (IH _ _ Hrow) by done. simpl. do 2 f_equal; lia.
    + rewrite (IH _ _ Hrow) by done. simpl. do 2 f_equal; lia.
Qed.

Lemma battles_are_counted_witness :
  meals (run demo (Update_meal_stats 3 <$> ["win"; "loss"; "win"]%string)) !! 3 =
    Some {| r_meal := "Salad"; r_cuisine := "Vegetarian"; r_price := Some 7.5%float;
            r_difficulty := "LOW"; r_battles := 0 + Z.of_nat 3; r_wins := 0 + Z.of_nat 2;
            r_deleted := false |}.
Proof.
  exact (battles_are_counted ["win"; "loss"; "win"]%string demo 3 _ eq_refl eq_refl
           ltac:(repeat (constructor; [first [by left | by right]|]); constructor)).
Defined.

(** ** White space around the text of a response *)

Lemma append_cons x (a b : string) : String x a +:+ b = String x (a +:+ b).
Proof. reflexivity. Qed.

Lemma append_nil (b : string) : EmptyString +:+ b = b.
Proof. reflexivity. Qed.

Lemma append_assoc (a b c : string) : (a +:+ b) +:+ c = a +:+ b +:+ c.
Proof.
  induction a as [|x a IH]; [done|]. by rewrite !append_cons, IH.
Qed.

Lemma rev_app_append (s acc : string) :
  String.rev_app s acc = String.rev s +:+ acc.
Proof.
  unfold String.rev. revert acc. induction s as [|x s IH]; intros acc; [done|].
  cbn [String.rev_app].
  by rewrite (IH (String x acc)), (IH (String x EmptyString)), append_assoc.
Qed.

Lemma rev_app_app (a b acc : string) :
  String.rev_app (a +:+ b) acc = String.rev_app b (String.rev_app a acc).
Proof.
  revert acc. induction a as [|x a IH]; intros acc; [done|].
  rewrite append_cons. apply IH.
Qed.

Lemma rev_append (a b : string) :
  String.rev (a +:+ b) = String.rev b +:+ String.rev a.
Proof. unfold String.rev at 1. by rewrite rev_app_app, rev_app_append. Qed.

Lemma all_space_append (a b : string) :
  all_space (a +:+ b) = all_space a && all_space b.
Proof.
  induction a as [|x a IH]; [done|].
  rewrite append_cons. cbn [all_space]. rewrite IH. by destruct (isspace x).
Qed.

Lemma all_space_rev (w : string) : all_space (String.rev w) = all_space w.
Proof.
  induction w as [|x w IH]; [done|].
  change (String x w) with (String x EmptyString +:+ w).
  rewrite rev_append, !all_space_append, IH. cbn.
  by destruct (all_space w), (isspace x).
Qed.

Lemma lstrip_space (w s : string) :
  all_space w = true → lstrip (w +:+ s) = lstrip s.
Proof.
  induction w as [|x w IH]; [done|]. cbn [all_space].
  intros [Hx Hw]%andb_prop. rewrite append_cons. cbn [lstrip]. rewrite Hx. by apply IH.
Qed.

Lemma lstrip_all_space (w : string) : all_space w = true → lstrip w = EmptyString.
Proof.
  induction w as [|x w IH]; [done|]. cbn [all_space lstrip].
  intros [-> Hw]%andb_prop. by apply IH.
Qed.

Lemma lstrip_append (s t : string) :
  lstrip s ≠ EmptyString → lstrip (s +:+ t) = lstrip s +:+ t.
Proof.
  induction s as [|x s IH]; [done|]. rewrite append_cons. cbn [lstrip].
  destruct (isspace x); [apply IH|done].
Qed.

Lemma lstrip_empty (s : string) : lstrip s = EmptyString → all_space s = true.
Proof.
  induction s as [|x s IH]; [done|]. cbn [lstrip all_space].
  destruct (isspace x); [apply IH|done].
Qed.

Lemma strip_white_space (before s after : string) :
  all_space before = true → all_space after = true →
  strip (before +:+ s +:+ after) = strip s.
Proof.
  intros Hb Ha. unfold strip. f_equal. rewrite lstrip_space by done.
  destruct (decide (lstrip s = EmptyString)) as [He|Hne].
  - rewrite He, (lstrip_space s after) by (by apply lstrip_empty).
    by rewrite (lstrip_all_space after).
  - rewrite lstrip_append by done. rewrite rev_append.
    apply lstrip_space. by rewrite all_space_rev.
Qed.

(** X17.  White space before and after the text of a response does not change
    what [get_random] makes of it: the float it returns or the exception
    it raises, the text in its message included. *)
Theorem get_random_ignores_white_space float_of_str status_code text before after :
  all_space before = true → all_space after = true →
  get_random float_of_str (Response status_code (before +:+ text +:+ after)) =
  get_random float_of_str (Response status_code text).
Proof.
  intros Hb Ha. rewrite !get_random_eq. by rewrite strip_white_space.
Qed.

Lemma get_random_ignores_white_space_witness :
  get_random plain_decimal (Response 200 (" " +:+ "0.45" +:+ LF)) =
  get_random plain_decimal (Response 200 "0.45").
Proof.
  exact (get_random_ignores_white_space plain_decimal 200 "0.45" " " LF eq_refl eq_refl).
Defined.

Lemma length_append (s t : string) :
  String.length (s +:+ t) = (String.length s + String.length t)%nat.
Proof.
  induction s as [|x s IH]; [done|].
  rewrite append_cons. cbn [String.length]. by rewrite IH.
Qed.

Lemma rev_involutive (s : string) : String.rev (String.rev s) = s.
Proof.
  induction s as [|x s IH]; [done|].
  change (String x s) with (String x EmptyString +:+ s).
  by rewrite !rev_append, IH.
Qed.

Lemma lstrip_split (s : string) :
  ∃ w, all_space w = true ∧ s = w +:+ lstrip s.
Proof.
  induction s as [|x s (w & Hw & Hs)]; [by exists EmptyString|]. cbn [lstrip].
  destruct (isspace x) eqn:Hx; [|by exists EmptyString].
  exists (String x w). split; [by cbn [all_space]; rewrite Hx|].
  by rewrite append_cons, <- Hs.
Qed.

Lemma lstrip_idemp (s : string) : lstrip (lstrip s) = lstrip s.
Proof.
  induction s as [|x s IH]; [done|]. cbn [lstrip].
  destruct (isspace x) eqn:Hx; [done|]. cbn [lstrip]. by rewrite Hx.
Qed.

Lemma lstrip_fixed c (s : string) :
  lstrip (String c s) = String c s → isspace c = false.
Proof.
  cbn [lstrip]. destruct (isspace c) eqn:Hc; [|done]. intros H.
  destruct (lstrip_split s) as (w & _ & Hw). rewrite H in Hw.
  apply (f_equal String.length) in Hw.
  rewrite length_append in Hw. cbn in Hw. lia.
Qed.

(** What [strip] leaves does not begin with white space... *)
Lemma lstrip_strip (s : string) : lstrip (strip s) = strip s.
Proof.
  unfold strip. set (x := lstrip s).
  assert (Hx : lstrip x = x) by apply lstrip_idemp.
  set (y := lstrip (String.rev x)).
  destruct x as [|c x'] eqn:Ex; [done|].
  pose proof (lstrip_fixed c x' Hx) as Hc.
  assert (Hz : ∃ z, y = z +:+ String c EmptyString).
  { unfold y. change (String c x') with (String c EmptyString +:+ x').
    rewrite rev_append.
    change (String.rev (String c EmptyString)) with (String c EmptyString).
    destruct (decide (lstrip (String.rev x') = EmptyString)) as [He|Hne].
    - exists EmptyString. rewrite lstrip_space by (by apply lstrip_empty).
      cbn [lstrip]. by rewrite Hc.
    - exists (lstrip (String.rev x')). by apply lstrip_append. }
  destruct Hz as [z ->]. rewrite rev_append.
  change (String.rev (String c EmptyString)) with (String c EmptyString).
  rewrite append_cons. cbn [lstrip]. by rewrite Hc.
Qed.

(** ... and does not end with it. *)
Lemma lstrip_rev_strip (s : string) :
  lstrip (String.rev (strip s)) = String.rev (strip s).
Proof. unfold strip. rewrite rev_involutive. apply lstrip_idemp. Qed.

Lemma strip_idemp (s : string) : strip (strip s) = strip s.
Proof.
  unfold strip at 1.
  by rewrite lstrip_strip, lstrip_rev_strip, rev_involutive.
Qed.

Lemma strip_trimmed (s : string) : trimmed (strip s).
Proof.
  split.
  - intros c s' H. apply (lstrip_fixed c s'). rewrite <- H. apply lstrip_strip.
  - intros s' c H. apply (lstrip_fixed c (String.rev s')).
    pose proof (lstrip_rev_strip s) as Hl.
    rewrite H, rev_append in Hl.
    change (String.rev (String c EmptyString)) with (String c EmptyString) in Hl.
    by rewrite append_cons, append_nil in Hl.
Qed.

(** [strip] takes white space off both ends, and nothing else. *)
Lemma strip_split (s : string) :
  ∃ before after,
    all_space before = true ∧ all_space after = true ∧
    s = before +:+ strip s +:+ after.
Proof.
  destruct (lstrip_split s) as (w1 & Hw1 & H1).
  destruct (lstrip_split (String.rev (lstrip s))) as (w2 & Hw2 & H2).
  apply (f_equal String.rev) in H2. rewrite rev_involutive, rev_append in H2.
  exists w1, (String.rev w2). split; [done|]. split; [by rewrite all_space_rev|].
  unfold strip. by rewrite <- H2.
Qed.

(** ** The outcomes of [get_random], by class and message *)

(** C9, as the code has it.  [get_random] raises the RuntimeError "timed
    out" exactly when the request times out; a RuntimeError again, with the
    message "failed" and the cause, exactly when the request fails
    otherwise or the response bears an error status; the ValueError
    "invalid response" exactly when a response is let through and its
    stripped text does not read as a float; and it returns the float read
    from the stripped text exactly when there is one.  There is no other
    outcome: the exception is of the class RuntimeError for every failure
    of the request, a timeout or not, the two differing in the message
    alone, and of the class ValueError for a text that does not parse.
    The text parsed is the text of the response without the white space at
    its two ends. *)
Theorem get_random_outcomes float_of_str r :
  (get_random float_of_str r = Raise (RuntimeError Request_timed_out) ↔ r = Timed_out) ∧
  (∀ cause, get_random float_of_str r = Raise (RuntimeError (Request_failed cause)) ↔
     (∃ text, r = Failed text ∧ cause = Get_raised text) ∨
     (∃ status_code text, r = Response status_code text ∧
        400 ≤ status_code < 600 ∧ cause = Bad_status status_code)) ∧
  (∀ s, get_random float_of_str r = Raise (ValueError (Invalid_response s)) ↔
     ∃ status_code text, r = Response status_code text ∧ status_ok status_code ∧
        s = strip text ∧ float_of_str s = None) ∧
  (∀ x, get_random float_of_str r = Ok x ↔
     ∃ status_code text, r = Response status_code text ∧ status_ok status_code ∧
        float_of_str (strip text) = Some x) ∧
  (∀ e, get_random float_of_str r = Raise e →
     e = RuntimeError Request_timed_out ∨
     (∃ cause, e = RuntimeError (Request_failed cause)) ∨
     (∃ s, e = ValueError (Invalid_response s))) ∧
  (∀ e, get_random float_of_str r = Raise e →
     (class_of e = "RuntimeError"%string ↔
      ¬ ∃ status_code text, r = Response status_code text ∧ status_ok status_code) ∧
     (class_of e = "ValueError"%string ↔
      ∃ status_code text, r = Response status_code text ∧ status_ok status_code)) ∧
  (∀ cause, class_of (RuntimeError Request_timed_out) =
            class_of (RuntimeError (Request_failed cause)) ∧
            Request_timed_out ≠ Request_failed cause) ∧
  (∀ text, trimmed (strip text) ∧
     ∃ before after, all_space before = true ∧ all_space after = true ∧
                     text = before +:+ strip text +:+ after).
Proof.
  assert (Hclass : ∀ e, get_random float_of_str r = Raise e →
     (class_of e = "RuntimeError"%string ↔
      ¬ ∃ status_code text, r = Response status_code text ∧ status_ok status_code) ∧
     (class_of e = "ValueError"%string ↔
      ∃ status_code text, r = Response status_code text ∧ status_ok status_code)).
  { intros e. rewrite get_random_eq. unfold status_ok.
    destruct r as [|text|status_code text];
      [| |destruct (decide (400 ≤ status_code < 600)) as [H|H];
          [|destruct (float_of_str (strip text)) as [x|] eqn:Hx]];
      intros He; simplify_eq; simpl;
      (split; split; [intros Hc|intros Hn|intros Hc|intros Hn]);
      try done;
      try (intros (? & ? & ? & ?); by simplify_eq);
      try (destruct Hn as (? & ? & ? & ?); by simplify_eq);
      try (destruct Hn; by eauto);
      by eauto. }
  split_and!; [..|done|by intros cause|intros text; split;
                                        [apply strip_trimmed|apply strip_split]];
  rewrite ?get_random_eq; unfold status_ok;
  (destruct r as [|text|status_code text];
    [| |destruct (decide (400 ≤ status_code < 600)) as [H|H];
        [|destruct (float_of_str (strip text)) as [x|] eqn:Hx]]);
    try done; intros;
    try (split;
         [ intros Heq; simplify_eq; eauto 10
         | intros; repeat match goal with
                          | H : _ ∨ _ |- _ => destruct H
                          | H : ∃ _, _ |- _ => destruct H
                          | H : _ ∧ _ |- _ => destruct H
                          end; simplify_eq; first [done | lia] ]);
    simplify_eq; simpl; eauto.
Qed.

(** C9, as stated, fails: a timeout and a refused connection raise
    exceptions of one and the same class, RuntimeError, so the two failure
    modes are not told apart by the type of the error. *)
Lemma get_random_failures_share_a_class :
  get_random plain_decimal Timed_out = Raise (RuntimeError Request_timed_out) ∧
  get_random plain_decimal (Failed "connection refused") =
    Raise (RuntimeError (Request_failed (Get_raised "connection refused"))) ∧
  class_of (RuntimeError Request_timed_out) =
    class_of (RuntimeError (Request_failed (Get_raised "connection refused"))) ∧
  ¬ (∀ float_of_str text e1 e2,
       get_random float_of_str Timed_out = Raise e1 →
       get_random float_of_str (Failed text) = Raise e2 →
       class_of e1 ≠ class_of e2).
Proof.
  split; [reflexivity|]. split; [reflexivity|]. split; [reflexivity|].
  intros H.
  by apply (H plain_decimal "connection refused"%string _ _ eq_refl eq_refl).
Qed.

(** ** Queries are compared up to white space *)

Lemma sub_spaces_run (w s : string) :
  all_space w = true → sub_spaces (w +:+ s) true = sub_spaces s true.
Proof.
  induction w as [|x w IH]; [done|]. cbn [all_space].
  intros [Hx Hw]%andb_prop. rewrite append_cons. cbn [sub_spaces]. rewrite Hx.
  by apply IH.
Qed.

Lemma sub_spaces_space (w s : string) in_run :
  all_space w = true → w ≠ EmptyString →
  sub_spaces (w +:+ s) in_run =
    if in_run then sub_spaces s true else String " " (sub_spaces s true).
Proof.
  destruct w as [|x w]; [done|]. cbn [all_space].
  intros [Hx Hw]%andb_prop _. rewrite append_cons. cbn [sub_spaces]. rewrite Hx.
  by rewrite sub_spaces_run.
Qed.

(** X18.  [normalize_whitespace] does not tell two runs of white space apart: a
    query reads the same whatever white space, and however much of it,
    stands at a place where there is some. *)
Theorem normalize_whitespace_runs (a b w1 w2 : string) :
  all_space w1 = true → w1 ≠ EmptyString →
  all_space w2 = true → w2 ≠ EmptyString →
  normalize_whitespace (a +:+ w1 +:+ b) = normalize_whitespace (a +:+ w2 +:+ b).
Proof.
  intros H1 N1 H2 N2. unfold normalize_whitespace. f_equal.
  generalize false. induction a as [|x a IH]; intros in_run.
  - rewrite !append_nil. by rewrite !sub_spaces_space.
  - rewrite !append_cons. cbn [sub_spaces].
    destruct (isspace x); [destruct in_run|]; by rewrite IH.
Qed.

Lemma normalize_whitespace_runs_witness :
  normalize_whitespace ("SELECT" +:+ (LF +:+ "    ") +:+ "deleted FROM meals") =
  normalize_whitespace ("SELECT" +:+ " " +:+ "deleted FROM meals").
Proof.
  exact (normalize_whitespace_runs "SELECT" "deleted FROM meals" (LF +:+ "    ") " "
           eq_refl ltac:(discriminate) eq_refl ltac:(discriminate)).
Defined.

Lemma sub_spaces_length (s : string) in_run :
  (String.length (sub_spaces s in_run) ≤ String.length s)%nat.
Proof.
  revert in_run. induction s as [|x s IH]; intros in_run; [done|].
  pose proof (IH true) as Ht. pose proof (IH false) as Hf.
  cbn [sub_spaces]. destruct (isspace x); [destruct in_run|];
    cbn [String.length]; lia.
Qed.

Lemma sub_spaces_idemp (s : string) in_run :
  sub_spaces (sub_spaces s in_run) in_run = sub_spaces s in_run.
Proof.
  revert in_run. induction s as [|x s IH]; intros in_run; [done|].
  cbn [sub_spaces]. destruct (isspace x) eqn:Hx.
  - destruct in_run; [apply IH|]. cbn [sub_spaces]. 
    change (isspace " ") with true. cbn. by rewrite IH.
  - cbn [sub_spaces]. by rewrite Hx, IH.
Qed.

Lemma sub_spaces_append (p q : string) in_run :
  sub_spaces (p +:+ q) in_run
  = sub_spaces p in_run +:+ sub_spaces q (run_after p in_run).
Proof.
  revert in_run. induction p as [|x p IH]; intros in_run; [done|].
  rewrite append_cons. cbn [sub_spaces run_after].
  destruct (isspace x); [destruct in_run|]; by rewrite IH, ?append_cons.
Qed.

Lemma append_inj_length (a b c d : string) :
  a +:+ b = c +:+ d → String.length a = String.length c → a = c.
Proof.
  revert c. induction a as [|x a IH]; intros [|y c] He Hl; try done.
  rewrite !append_cons in He. injection He as -> He.
  f_equal. apply IH; [done|]. cbn in Hl. lia.
Qed.

Lemma sub_spaces_prefix (p q : string) in_run :
  sub_spaces (p +:+ q) in_run = p +:+ q → sub_spaces p in_run = p.
Proof.
  intros He. rewrite sub_spaces_append in He.
  apply (append_inj_length _ _ _ _ He).
  pose proof (sub_spaces_length p in_run).
  pose proof (sub_spaces_length q (run_after p in_run)).
  apply (f_equal String.length) in He. rewrite !length_append in He. lia.
Qed.

Lemma sub_spaces_lstrip (s : string) in_run :
  sub_spaces s in_run = s → sub_spaces (lstrip s) false = lstrip s.
Proof.
  revert in_run. induction s as [|x s IH]; intros in_run He; [done|].
  cbn [sub_spaces] in He. cbn [lstrip].
  destruct (isspace x) eqn:Hx.
  - destruct in_run.
    + pose proof (sub_spaces_length s true) as Hl. rewrite He in Hl.
      cbn in Hl. lia.
    + injection He as _ He. by apply (IH true).
  - injection He as He. cbn [sub_spaces]. by rewrite Hx, He.
Qed.

(** X19.  [normalize_whitespace] is idempotent: a query that is already
    normalised is left as it is, so normalising the expected and the actual
    query of a test compares the two in normal form. *)
Theorem normalize_whitespace_idempotent (sql_query : string) :
  normalize_whitespace (normalize_whitespace sql_query)
  = normalize_whitespace sql_query.
Proof.
  unfold normalize_whitespace.
  set (t := sub_spaces sql_query false).
  assert (Ht : sub_spaces t false = t) by apply sub_spaces_idemp.
  assert (Hx : sub_spaces (lstrip t) false = lstrip t)
    by apply (sub_spaces_lstrip _ _ Ht).
  assert (Hu : sub_spaces (strip t) false = strip t).
  { unfold strip. remember (lstrip t) as x eqn:Ex. clear Ex.
    destruct (lstrip_split (String.rev x)) as (w & _ & Hw).
    apply (f_equal String.rev) in Hw.
    rewrite rev_involutive, rev_append in Hw.
    rewrite Hw in Hx. by apply sub_spaces_prefix in Hx. }
  by rewrite Hu, strip_idemp.
Qed.

(** ** The tests of the repository, run on the model *)

(** [test_meal_initialization_valid_data], [..._invalid_price],
    [..._invalid_difficulty]. *)
Example test_meal_initialization :
  Meal_init 1 "Pizza" "Italian" (PyFloat 15) "MED" =
    Ok {| m_id := 1; m_meal := "Pizza"; m_cuisine := "Italian";
          m_price := PyFloat 15; m_difficulty := "MED" |} ∧
  Meal_init 2 "Sushi" "Japanese" (PyFloat (-5)) "HIGH" =
    Raise (ValueError Price_must_be_positive) ∧
  Meal_init 3 "Burger" "American" (PyFloat 10) "EASY" =
    Raise (ValueError Difficulty_must_be).
Proof. by repeat split. Qed.

(** [test_create_meal], [test_create_meal_invalid_price],
    [test_create_meal_invalid_difficulty]. *)
Example test_create_meal :
  trace (create_meal "Meal Name" "Cuisine Type" (PyFloat 10.5) "MED" empty_db).2 =
    [Connect;
     Execute (INSERT_INTO_meals "Meal Name" "Cuisine Type" 10.5 "MED");
     Commit] ∧
  create_meal "Meal Name" "Italian" (PyFloat (-10.5)) "MED" empty_db =
    (Raise (ValueError (Invalid_price (PyFloat (-10.5)))), empty_db) ∧
  create_meal "Meal Name" "Italian" (PyFloat 10.5) "EASY" empty_db =
    (Raise (ValueError (Invalid_difficulty "EASY")), empty_db) ∧
  create_meal "Meal Name" "Italian" PyNone "MED" empty_db =
    (Raise (ValueError (Invalid_price PyNone)), empty_db).
Proof. by repeat split. Qed.

(** [test_delete_meal_success], [test_delete_meal_already_deleted],
    [test_delete_meal_not_found]. *)
Example test_delete_meal :
  (delete_meal 1 demo).1 = Ok tt ∧
  trace (delete_meal 1 empty_db).2 = [Connect; Execute (SELECT_deleted 1)] ∧
  (delete_meal 1 (delete_meal 1 demo).2).1 =
    Raise (ValueError (Id_has_been_deleted 1)) ∧
  (delete_meal 7 demo).1 = Raise (ValueError (Id_not_found 7)).
Proof. by repeat split. Qed.

(** [test_get_leaderboard_sorted_by_wins], with the ratio computed by the
    query, and [test_get_leaderboard_invalid_sort_by]. *)
#[warnings="-inexact-float"]
Example test_get_leaderboard :
  (get_leaderboard "wins" demo).1 =
    Ok [ {| e_id := 2; e_meal := "Sushi"; e_cuisine := "Japanese";
            e_price := Some 20%float; e_difficulty := "HIGH";
            e_battles := 5; e_wins := 4; e_win_pct := 80 |};
         {| e_id := 1; e_meal := "Pizza"; e_cuisine := "Italian";
            e_price := Some 15%float; e_difficulty := "MED";
            e_battles := 3; e_wins := 2; e_win_pct := 66.7 |} ] ∧
  (get_leaderboard "win_pct" demo).1 = (get_leaderboard "wins" demo).1 ∧
  get_leaderboard "invalid" demo =
    (Raise (ValueError (Invalid_sort_by "invalid")), demo).
Proof. by repeat split. Qed.

(** The percentages of the mocked rows of the tests: 0.8 and 0.67. *)
#[warnings="-inexact-float"]
Example test_round :
  Real.round1 (0.8 * 100) = 80%float ∧ Real.round1 (0.67 * 100) = 67%float.
Proof. by split. Qed.

(** [test_update_meal_stats_deleted], [..._not_found], [..._invalid_result]. *)
Example test_update_meal_stats :
  (update_meal_stats 3 "win" (delete_meal 3 demo).2).1 =
    Raise (ValueError (Id_has_been_deleted 3)) ∧
  (update_meal_stats 4 "win" demo).1 = Raise (ValueError (Id_not_found 4)) ∧
  (update_meal_stats 3 "invalid_result" demo).1 =
    Raise (ValueError (Invalid_result "invalid_result")).
Proof. by repeat split. Qed.

(** [test_get_random_success], [..._invalid_response], [..._timeout],
    [..._request_exception], and a response with an error status. *)
#[warnings="-inexact-float"]
Example test_get_random :
  get_random plain_decimal (Response 200 ("0.45" +:+ LF)) = Ok 0.45%float ∧
  get_random plain_decimal (Response 200 "invalid_text") =
    Raise (ValueError (Invalid_response "invalid_text")) ∧
  get_random plain_decimal Timed_out = Raise (RuntimeError Request_timed_out) ∧
  get_random plain_decimal (Failed "Network error") =
    Raise (RuntimeError (Request_failed (Get_raised "Network error"))) ∧
  get_random plain_decimal (Response 503 ("0.45" +:+ LF)) =
    Raise (RuntimeError (Request_failed (Bad_status 503))).
Proof. by repeat split. Qed.
